(** * Router use case of the sidecar query server (ingest/sqs/router/usecase)

    A shallow embedding of the planner, package [usecase]: the overlap
    filter, the conversion of ranked routes back to candidate routes, the
    candidate-route handling with its persistent repository, and the
    quote operations with the in-memory ranked-route cache.

    Conventions.
    - [uint64] pool ids are [N]; no arithmetic is done on them.
    - [osmomath.Int] amounts and Go [int] values are [Z].
    - [map[uint64]struct{}] is a [gset N].
    - A Go slice is a [list]; indexing out of range is a run-time panic and
      is written out as such.
    - A Go method returning [(value, error)] is a computation on the
      planner's state that ends in a [Result]; the state survives an
      error, as it does in Go. *)

From Stdlib Require Import ZArith Lia Ascii.
From stdpp Require Import base option list sets gmap strings pretty.

#[local] Set Warnings "-clear-no-such-hyp".

Open Scope Z_scope.

(** ** Data model (package [route]) *)

Module route.

(** [route.CandidatePool]: the directed use of a pool inside a route. *)
Record CandidatePool := mkCandidatePool {
  ID : N;
  TokenOutDenom : string;
}.

(** [route.CandidateRoute]. *)
Record CandidateRoute := mkCandidateRoute {
  Pools : list CandidatePool;
}.

(** [route.CandidateRoutes]. *)
Record CandidateRoutes := mkCandidateRoutes {
  Routes : list CandidateRoute;
  UniquePoolIDs : gset N;
}.

(** The zero value [route.CandidateRoutes{}]. *)
Definition empty : CandidateRoutes :=
  {| Routes := []; UniquePoolIDs := ∅ |}.

(** [domain.RoutablePool]: a candidate pool bound to its pool record.
    The planner only calls [GetId] and [GetTokenOutDenom]; the spread
    factor and the taker fee ([osmomath.Dec], a scaled integer) stand
    for the bound state a cached route must not carry. *)
Record RoutablePool := mkRoutablePool {
  GetId : N;
  GetTokenOutDenom : string;
  GetSpreadFactor : Z;
  GetTakerFee : Z;
}.

(** [route.RouteImpl]. *)
Record RouteImpl := mkRouteImpl {
  GetPools : list RoutablePool;
}.

End route.

Import route.

Global Instance CandidatePool_eq_dec : EqDecision CandidatePool.
Proof. solve_decision. Defined.
Global Instance CandidateRoute_eq_dec : EqDecision CandidateRoute.
Proof. solve_decision. Defined.
Global Instance RoutablePool_eq_dec : EqDecision RoutablePool.
Proof. solve_decision. Defined.
Global Instance RouteImpl_eq_dec : EqDecision RouteImpl.
Proof. solve_decision. Defined.

(** ** The overlap filter *)

(** The inner loop of [filterDuplicatePoolIDRoutes] over the pools of one
    route: [existsPoolID] is reassigned by the map lookup at every pool, the
    loop breaks at the first pool id found in [combinedPoolIDsMap], and
    every pool id passed before that is added to [currentRoutePoolIDsMap].
    Returns the final [existsPoolID] and [currentRoutePoolIDsMap]. *)
Fixpoint scanRoutePools (combinedPoolIDsMap : gset N) (pools : list RoutablePool)
    (existsPoolID : bool) (currentRoutePoolIDsMap : gset N) : bool * gset N :=
  match pools with
  | [] => (existsPoolID, currentRoutePoolIDsMap)
  | pool :: rest =>
      let poolID := GetId pool in
      let existsPoolID := bool_decide (poolID ∈ combinedPoolIDsMap) in
      if existsPoolID then (existsPoolID, currentRoutePoolIDsMap)
      else scanRoutePools combinedPoolIDsMap rest existsPoolID
             ({[poolID]} ∪ currentRoutePoolIDsMap)
  end.

(** The outer loop, threading [combinedPoolIDsMap] and
    [filteredRankedRoutes]. *)
Fixpoint filterLoop (rankedRoutes : list RouteImpl) (combinedPoolIDsMap : gset N)
    (filteredRankedRoutes : list RouteImpl) : list RouteImpl :=
  match rankedRoutes with
  | [] => filteredRankedRoutes
  | route :: rest =>
      let '(existsPoolID, currentRoutePoolIDsMap) :=
        scanRoutePools combinedPoolIDsMap (GetPools route) false ∅ in
      if existsPoolID then filterLoop rest combinedPoolIDsMap filteredRankedRoutes
      else filterLoop rest (currentRoutePoolIDsMap ∪ combinedPoolIDsMap)
             (filteredRankedRoutes ++ [route])
  end.

(** [filterDuplicatePoolIDRoutes]. *)
Definition filterDuplicatePoolIDRoutes (rankedRoutes : list RouteImpl) : list RouteImpl :=
  filterLoop rankedRoutes ∅ [].

(** ** Ranked routes back to candidate routes *)

(** The inner loop of [convertRankedToCandidateRoutes]: appends one
    candidate pool per ranked pool and records its id. *)
Fixpoint convertPools (pools : list RoutablePool) (candidatePools : list CandidatePool)
    (uniquePoolIDs : gset N) : list CandidatePool * gset N :=
  match pools with
  | [] => (candidatePools, uniquePoolIDs)
  | rankedPool :: rest =>
      let candidatePool :=
        {| ID := GetId rankedPool; TokenOutDenom := GetTokenOutDenom rankedPool |} in
      convertPools rest (candidatePools ++ [candidatePool])
        ({[GetId rankedPool]} ∪ uniquePoolIDs)
  end.

(** The outer loop over the ranked routes. *)
Fixpoint convertLoop (rankedRoutes : list RouteImpl) (candidateRoutes : CandidateRoutes)
    : CandidateRoutes :=
  match rankedRoutes with
  | [] => candidateRoutes
  | rankedRoute :: rest =>
      let '(pools, ids) :=
        convertPools (GetPools rankedRoute) [] (UniquePoolIDs candidateRoutes) in
      convertLoop rest
        {| Routes := Routes candidateRoutes ++ [{| Pools := pools |}];
           UniquePoolIDs := ids |}
  end.

(** [convertRankedToCandidateRoutes]. *)
Definition convertRankedToCandidateRoutes (rankedRoutes : list RouteImpl) : CandidateRoutes :=
  convertLoop rankedRoutes {| Routes := []; UniquePoolIDs := ∅ |}.

(** ** Views used in the statements *)

(** The set of pool ids of a bound route. *)
Definition routePoolIDs (r : RouteImpl) : gset N :=
  list_to_set (GetId <$> GetPools r).

(** The set of pool ids of a candidate route. *)
Definition candidatePoolIDs (c : CandidateRoute) : gset N :=
  list_to_set (ID <$> Pools c).

(** The ordered [(pool_id, token_out_denom)] pairs of a bound route and of
    a candidate route. *)
Definition routeSteps (r : RouteImpl) : list (N * string) :=
  (λ p, (GetId p, GetTokenOutDenom p)) <$> GetPools r.

Definition candidateSteps (c : CandidateRoute) : list (N * string) :=
  (λ p, (ID p, TokenOutDenom p)) <$> Pools c.

(** Routes at two different positions of a list share no pool id. *)
Definition PairwisePoolDisjoint (rs : list RouteImpl) : Prop :=
  ∀ i j ri rj, (i < j)%nat → rs !! i = Some ri → rs !! j = Some rj →
    routePoolIDs ri ## routePoolIDs rj.

Definition CandidatesPoolDisjoint (cs : list CandidateRoute) : Prop :=
  ∀ i j ci cj, (i < j)%nat → cs !! i = Some ci → cs !! j = Some cj →
    candidatePoolIDs ci ## candidatePoolIDs cj.

(** The pool ids accepted so far: the union over a list of routes. *)
Definition acceptedPoolIDs (rs : list RouteImpl) : gset N :=
  ⋃ (routePoolIDs <$> rs).

(** The candidate route that keeps the [(id, token out denom)] steps of one
    ranked route and nothing else. *)
Definition toCandidateRoute (r : RouteImpl) : CandidateRoute :=
  {| Pools := (λ p, {| ID := GetId p; TokenOutDenom := GetTokenOutDenom p |})
                <$> GetPools r |}.

(** ** Values of package [domain] and [sdk] *)

(** [sdk.Coin]. *)
Record Coin := mkCoin {
  Denom : string;
  Amount : Z;
}.

(** [RouteWithOutAmount], the [domain.SplitRoute] the evaluator returns. *)
Record RouteWithOutAmount := mkRouteWithOutAmount {
  RouteImpl_ : RouteImpl;
  InAmount : Z;
  OutAmount : Z;
}.

(** [domain.Quote], by its getters. *)
Record Quote := mkQuote {
  GetAmountIn : Coin;
  GetAmountOut : Z;
  GetRoute : list RouteWithOutAmount;
}.

(** [domain.RouterConfig]. *)
Record RouterConfig := mkRouterConfig {
  PreferredPoolIDs : list N;
  MaxPoolsPerRoute : Z;
  MaxRoutes : Z;
  MaxSplitRoutes : Z;
  MaxSplitIterations : Z;
  MinOSMOLiquidity : Z;
  RouteUpdateHeightInterval : Z;
  RouteCacheEnabled : bool;
}.

(** ** Errors and results *)

(** The errors the use case creates itself, an error handed up from a
    collaborator, and a run-time panic (index or slice bound out of
    range). *)
Inductive Error :=
  | CacheError            (* "error casting ranked routes from cache" *)
  | NoRankedRoutes        (* "no ranked routes found" *)
  | ZeroOutput            (* "best we can do is no tokens out" *)
  | NoMatchingRoute (poolIDs : list N)      (* "no route found for poolIDs: %v" *)
  | RouteIndexOutOfBounds (routeIndex : Z)  (* "routeIndex %d is out of bounds" *)
  | RouteCacheDisabled    (* "route cache is disabled" *)
  | CollaboratorError (msg : string)
  | Panic.

Inductive Result (A : Type) :=
  | Ok (a : A)
  | Err (e : Error).
Arguments Ok {A} a.
Arguments Err {A} e.

(** What a collaborator hands back: a value, or an error the use case
    passes up unread (kept by its message). *)
Definition ofReply {A} (r : string + A) : Result A :=
  match r with
  | inl msg => Err (CollaboratorError msg)
  | inr a => Ok a
  end.

Global Instance Result_ret : MRet Result := λ A a, Ok a.
Global Instance Result_bind : MBind Result := λ A B k r,
  match r with
  | Ok a => k a
  | Err e => Err e
  end.

(** ** The ranked-route cache (package [cache]) *)

(** [time.Duration] is a count of nanoseconds. *)
Definition Second : Z := 1000000000.
Definition Minute : Z := 60 * Second.

(** The cache holds [interface{}] values; the use case only stores
    [route.CandidateRoutes] and type-asserts on reading. *)
Inductive CacheValue :=
  | CandidateRoutesValue (c : CandidateRoutes)
  | OtherValue (tag : string).

Record CacheItem := mkCacheItem {
  Value : CacheValue;
  Expiration : Z;
}.

(** Modelled from the spec: the in-memory cache [cache.Cache] is a store
    from string keys to opaque values, [get(key) -> (value, hit)] and
    [set(key, value, ttl)]. The time-to-live is recorded with the entry;
    eviction needs the clock and is left out, so an entry is a hit until
    it is overwritten. *)
Definition Cache_Get (c : gmap string CacheItem) (key : string) : option CacheValue :=
  Value <$> c !! key.

Definition Cache_Set (c : gmap string CacheItem) (key : string) (value : CacheValue)
    (expiration : Z) : gmap string CacheItem :=
  <[key := {| Value := value; Expiration := expiration |}]> c.

(** Every candidate-routes value held in a cache has pairwise
    pool-disjoint routes. *)
Definition RankedCacheDisjoint (c : gmap string CacheItem) : Prop :=
  ∀ key cached, Cache_Get c key = Some (CandidateRoutesValue cached) →
    CandidatesPoolDisjoint (Routes cached).

(** ** Metrics *)

Definition candidateRouteCacheLabel : string := "candidate_route".
Definition rankedRouteCacheLabel : string := "ranked_route".

(** A [prometheus.CounterVec] with labels
    [route, cache_type, token_in, token_out]. *)
Definition Inc (labels : string * string * string * string)
    (m : gmap (string * string * string * string) nat)
    : gmap (string * string * string * string) nat :=
  <[labels := S (default 0%nat (m !! labels))]> m.

(** ** Collaborators

    The repository, the pools use case, the router and the helpers of
    package [domain] are outside this file's source. They are interfaces
    here: every result below holds for all their implementations.  A call
    answers with a value ([inr]) or with an error message ([inl]).  Reads
    do not change the planner's state; [SetRoutes] is the only repository
    write and returns the repository after it.  A [Router] is a value:
    [WithSortedPools] returns the router with the pools set and the search
    runs on what it returns. *)

Class Domain := {
  Context : Type;
  Repository : Type;
  PoolI : Type;
  TakerFeeMap : Type;
  Router : Type;
}.

(** [mvc.RouterRepository]. *)
Class RouterRepository `{Domain} := {
  GetRoutes : Repository → Context → string → string → string + CandidateRoutes;
  SetRoutes : Repository → Context → string → string → CandidateRoutes
              → Repository * option string;
  GetAllTakerFees : Repository → Context → string + TakerFeeMap;
}.

(** [mvc.PoolsUsecase]. *)
Class PoolsUsecase `{Domain} := {
  GetAllPools : Context → string + list PoolI;
  GetRoutesFromCandidates :
    Context → CandidateRoutes → TakerFeeMap → string → string → string + list RouteImpl;
}.

(** The [Router] of the same package, [domain.GetURLPathFromContext] and
    [osmomath.OrderOfMagnitude]. *)
Class RouterAPI `{Domain} := {
  NewRouter : list N → Z → Z → Z → Z → Z → Router;
  WithSortedPools : Router → list PoolI → Router;
  maxSplitRoutes : Router → Z;
  Router_GetCandidateRoutes : Router → string → string → string + CandidateRoutes;
  estimateAndRankSingleRouteQuote :
    Router → list RouteImpl → Coin → string + (Quote * list RouteWithOutAmount);
  GetSplitQuote : Router → list RouteImpl → Coin → string + Quote;
  GetURLPathFromContext : Context → string + string;
  OrderOfMagnitude : Z → Z;
}.

(** ** The use case *)

Section Usecase.

Context {D : Domain} {RR : RouterRepository} {PU : PoolsUsecase} {RA : RouterAPI}.

(** The mutable part of [routerUseCaseImpl] and the two package-level
    counters. The configuration is read-only and passed along as [cfg]. *)
Record State := mkState {
  routerRepository : Repository;
  rankedRouteCache : gmap string CacheItem;
  cacheHits : gmap (string * string * string * string) nat;
  cacheMisses : gmap (string * string * string * string) nat;
}.

(** A method of the use case: reads and writes the state, and returns a
    value or an error. *)
Definition M (A : Type) : Type := State → State * Result A.

Global Instance M_ret : MRet M := λ A a s, (s, Ok a).
Global Instance M_bind : MBind M := λ A B k m s,
  match m s with
  | (s', Ok a) => k a s'
  | (s', Err e) => (s', Err e)
  end.

Definition fail {A} (e : Error) : M A := λ s, (s, Err e).
Definition lift {A} (r : Result A) : M A := λ s, (s, r).
Definition gets {A} (f : State → A) : M A := λ s, (s, Ok (f s)).
Definition modify (f : State → State) : M unit := λ s, (f s, Ok tt).

(** A call to a collaborator. *)
Definition call {A} (r : string + A) : M A := lift (ofReply r).

Definition withRepository (repo : Repository) (s : State) : State :=
  {| routerRepository := repo; rankedRouteCache := rankedRouteCache s;
     cacheHits := cacheHits s; cacheMisses := cacheMisses s |}.

Definition withRankedRouteCache (c : gmap string CacheItem) (s : State) : State :=
  {| routerRepository := routerRepository s; rankedRouteCache := c;
     cacheHits := cacheHits s; cacheMisses := cacheMisses s |}.

(** [cacheHits.WithLabelValues(...).Inc()] and the same on [cacheMisses]. *)
Definition withCacheHit (labels : string * string * string * string) (s : State) : State :=
  {| routerRepository := routerRepository s; rankedRouteCache := rankedRouteCache s;
     cacheHits := Inc labels (cacheHits s); cacheMisses := cacheMisses s |}.

Definition withCacheMiss (labels : string * string * string * string) (s : State) : State :=
  {| routerRepository := routerRepository s; rankedRouteCache := rankedRouteCache s;
     cacheHits := cacheHits s; cacheMisses := Inc labels (cacheMisses s) |}.

Definition incCacheHits (labels : string * string * string * string) : M unit :=
  modify (withCacheHit labels).

Definition incCacheMisses (labels : string * string * string * string) : M unit :=
  modify (withCacheMiss labels).

(** [r.rankedRouteCache.Get] and [r.rankedRouteCache.Set]. *)
Definition rankedRouteCache_Get (key : string) : M (option CacheValue) :=
  gets (λ s, Cache_Get (rankedRouteCache s) key).

Definition rankedRouteCache_Set (key : string) (value : CacheValue) (expiration : Z)
    : M unit :=
  modify (λ s, withRankedRouteCache
                 (Cache_Set (rankedRouteCache s) key value expiration) s).

(** [r.routerRepository.SetRoutes]: the repository after the write is kept
    whether or not the write reports an error. *)
Definition routerRepository_SetRoutes (ctx : Context) (denom0 denom1 : string)
    (routes : CandidateRoutes) : M unit :=
  λ s, let '(repo, err) := SetRoutes (routerRepository s) ctx denom0 denom1 routes in
       (withRepository repo s,
        match err with
        | Some msg => Err (CollaboratorError msg)
        | None => Ok tt
        end).

(** [formatRankedRouteCacheKey]: [fmt.Sprintf("%s/%s/%d", ...)]. *)
Definition formatRankedRouteCacheKey (tokenInDenom tokenOutDenom : string)
    (tokenIOrderOfMagnitude : Z) : string :=
  tokenInDenom +:+ "/" +:+ tokenOutDenom +:+ "/" +:+ pretty tokenIOrderOfMagnitude.

(** [initializeRouter]. *)
Definition initializeRouter (cfg : RouterConfig) : Router :=
  NewRouter [] (MaxPoolsPerRoute cfg) (MaxRoutes cfg) (MaxSplitRoutes cfg)
    (MaxSplitIterations cfg) (MinOSMOLiquidity cfg).

(** [handleCandidateRoutes].  On an error Go returns the zero
    [route.CandidateRoutes{}] next to it.  [WithSortedPools] hands back the
    router that the search then runs on. *)
Definition handleCandidateRoutes (cfg : RouterConfig) (ctx : Context) (router : Router)
    (tokenInDenom tokenOutDenom : string) : M CandidateRoutes :=
  candidateRoutes ←
    (if RouteCacheEnabled cfg
     then repo ← gets routerRepository ;
          call (GetRoutes repo ctx tokenInDenom tokenOutDenom)
     else mret route.empty) ;
  requestURLPath ← call (GetURLPathFromContext ctx) ;
  if decide (length (Routes candidateRoutes) = 0%nat) then
    incCacheMisses (requestURLPath, candidateRouteCacheLabel, tokenInDenom, tokenOutDenom) ;;
    allPools ← call (GetAllPools ctx) ;
    let router := WithSortedPools router allPools in
    candidateRoutes ← call (Router_GetCandidateRoutes router tokenInDenom tokenOutDenom) ;
    (if bool_decide (0 < length (Routes candidateRoutes))%nat && RouteCacheEnabled cfg
     then routerRepository_SetRoutes ctx tokenInDenom tokenOutDenom candidateRoutes
     else mret tt) ;;
    mret candidateRoutes
  else
    incCacheHits (requestURLPath, candidateRouteCacheLabel, tokenInDenom, tokenOutDenom) ;;
    mret candidateRoutes.

(** [GetCandidateRoutes]. *)
Definition GetCandidateRoutes (cfg : RouterConfig) (ctx : Context)
    (tokenInDenom tokenOutDenom : string) : M CandidateRoutes :=
  let router := initializeRouter cfg in
  handleCandidateRoutes cfg ctx router tokenInDenom tokenOutDenom.

(** [GetCachedCandidateRoutes], with Go's pair of results kept as it is:
    the returned value and the error, if any. *)
Definition GetCachedCandidateRoutes (cfg : RouterConfig) (ctx : Context)
    (tokenInDenom tokenOutDenom : string) (s : State)
    : State * (CandidateRoutes * option Error) :=
  if negb (RouteCacheEnabled cfg) then (s, (route.empty, Some RouteCacheDisabled))
  else
    match GetRoutes (routerRepository s) ctx tokenInDenom tokenOutDenom with
    | inl err => (s, (route.empty, Some (CollaboratorError err)))
    | inr cachedCandidateRoutes => (s, (cachedCandidateRoutes, None))
    end.

(** [routes[i]] for a Go [int] index. *)
Definition index {A} (l : list A) (i : Z) : Result A :=
  if decide (0 ≤ i) then
    match l !! Z.to_nat i with
    | Some a => Ok a
    | None => Err Panic
    end
  else Err Panic.

(** [routes[:k]]: a slice is taken with capacity equal to its length, so
    the bound must lie within the list. *)
Definition sliceTo {A} (l : list A) (k : Z) : Result (list A) :=
  if decide (0 ≤ k ∧ k ≤ Z.of_nat (length l)) then Ok (take (Z.to_nat k) l)
  else Err Panic.

(** The loop [for i := 0; i < numRoutes; i++ { routes[i] =
    routesSortedByAmtOut[i].RouteImpl }], [n] iterations from index [i]. *)
Fixpoint overwriteTopRoutes (n : nat) (i : nat) (routes : list RouteImpl)
    (routesSortedByAmtOut : list RouteWithOutAmount) : Result (list RouteImpl) :=
  match n with
  | O => Ok routes
  | S n' =>
      match routesSortedByAmtOut !! i with
      | None => Err Panic
      | Some sorted =>
          if decide (i < length routes)%nat
          then overwriteTopRoutes n' (S i) (<[i := RouteImpl_ sorted]> routes)
                 routesSortedByAmtOut
          else Err Panic
      end
  end.

(** [estimateDirectQuote]. *)
Definition estimateDirectQuote (router : Router) (routes : list RouteImpl) (tokenIn : Coin)
    : Result (Quote * list RouteImpl) :=
  '(topQuote, routesSortedByAmtOut) ←
     ofReply (estimateAndRankSingleRouteQuote router routes tokenIn) ;
  let numRoutes := Z.of_nat (length routesSortedByAmtOut) in
  '(routes, numRoutes) ←
     (if (maxSplitRoutes router =? 0) && (0 <? numRoutes) then Ok (routes, 1)
      else if maxSplitRoutes router <? Z.of_nat (length routesSortedByAmtOut) then
        routes ← sliceTo routes (maxSplitRoutes router) ;
        Ok (routes, maxSplitRoutes router)
      else Ok (routes, numRoutes)) ;
  routes ← overwriteTopRoutes (Z.to_nat numRoutes) 0 routes routesSortedByAmtOut ;
  Ok (topQuote, routes).

(** [rankRoutesByDirectQuote]. *)
Definition rankRoutesByDirectQuote (ctx : Context) (router : Router)
    (candidateRoutes : CandidateRoutes) (tokenIn : Coin) (tokenOutDenom : string)
    : M (Quote * list RouteImpl) :=
  repo ← gets routerRepository ;
  takerFees ← call (GetAllTakerFees repo ctx) ;
  routes ← call (GetRoutesFromCandidates ctx candidateRoutes takerFees
                    (Denom tokenIn) tokenOutDenom) ;
  lift (estimateDirectQuote router routes tokenIn).

(** The body of [GetOptimalQuote] in three blocks, in source order: the
    branch taken on a ranked-route cache hit, the branch taken on a miss,
    and the selection of the final quote after either. *)

(** [if hasRankedRoutesInCache { ... }]. *)
Definition rankedRoutesOnHit (ctx : Context) (router : Router) (requestURLPath : string)
    (rankedRoutesData : CacheValue) (tokenIn : Coin) (tokenOutDenom : string)
    : M (Quote * list RouteImpl) :=
  incCacheHits (requestURLPath, rankedRouteCacheLabel, Denom tokenIn, tokenOutDenom) ;;
  match rankedRoutesData with
  | CandidateRoutesValue rankedCandidateRoutes =>
      rankRoutesByDirectQuote ctx router rankedCandidateRoutes tokenIn tokenOutDenom
  | OtherValue _ => fail CacheError
  end.

(** [else { ... }]. *)
Definition rankedRoutesOnMiss (cfg : RouterConfig) (ctx : Context) (router : Router)
    (requestURLPath : string) (tokenIn : Coin) (tokenOutDenom : string)
    (tokenInOrderOfMagnitude : Z) : M (Quote * list RouteImpl) :=
  incCacheMisses (requestURLPath, rankedRouteCacheLabel, Denom tokenIn, tokenOutDenom) ;;
  candidateRoutes ← handleCandidateRoutes cfg ctx router (Denom tokenIn) tokenOutDenom ;
  '(topSingleRouteQuote, rankedRoutes) ←
     rankRoutesByDirectQuote ctx router candidateRoutes tokenIn tokenOutDenom ;
  if decide (length rankedRoutes = 0%nat) then fail NoRankedRoutes
  else
    let rankedRoutes := filterDuplicatePoolIDRoutes rankedRoutes in
    (if decide (0 < length rankedRoutes)%nat
     then
       let candidateRoutes := convertRankedToCandidateRoutes rankedRoutes in
       rankedRouteCache_Set
         (formatRankedRouteCacheKey (Denom tokenIn) tokenOutDenom tokenInOrderOfMagnitude)
         (CandidateRoutesValue candidateRoutes) (Minute * 5)
     else mret tt) ;;
    mret (topSingleRouteQuote, rankedRoutes).

(** From [if len(rankedRoutes) == 1] to the end.  The last debug line
    reads [finalQuote.GetRoute()[0]], which panics on a quote without
    routes. *)
Definition selectQuote (router : Router) (tokenIn : Coin) (topSingleRouteQuote : Quote)
    (rankedRoutes : list RouteImpl) : M Quote :=
  if decide (length rankedRoutes = 1%nat) then mret topSingleRouteQuote
  else
    topSplitQuote ← call (GetSplitQuote router rankedRoutes tokenIn) ;
    let finalQuote :=
      if GetAmountOut topSingleRouteQuote <? GetAmountOut topSplitQuote
      then topSplitQuote else topSingleRouteQuote in
    match GetRoute finalQuote with
    | [] => fail Panic
    | _ :: _ =>
        if GetAmountOut finalQuote =? 0 then fail ZeroOutput
        else mret finalQuote
    end.

(** [GetOptimalQuote]. *)
Definition GetOptimalQuote (cfg : RouterConfig) (ctx : Context) (tokenIn : Coin)
    (tokenOutDenom : string) : M Quote :=
  let tokenInOrderOfMagnitude := OrderOfMagnitude (Amount tokenIn) in
  rankedRoutesData ←
    rankedRouteCache_Get
      (formatRankedRouteCacheKey (Denom tokenIn) tokenOutDenom tokenInOrderOfMagnitude) ;
  let router := initializeRouter cfg in
  requestURLPath ← call (GetURLPathFromContext ctx) ;
  '(topSingleRouteQuote, rankedRoutes) ←
     match rankedRoutesData with
     | Some data => rankedRoutesOnHit ctx router requestURLPath data tokenIn tokenOutDenom
     | None => rankedRoutesOnMiss cfg ctx router requestURLPath tokenIn tokenOutDenom
                 tokenInOrderOfMagnitude
     end ;
  selectQuote router tokenIn topSingleRouteQuote rankedRoutes.

(** Two names for the statements about [GetOptimalQuote]: the key it
    uses in the ranked-route cache, and its first phase, up to the ranked
    routes that reach the selection. *)
Definition rankedRouteCacheKey (tokenIn : Coin) (tokenOutDenom : string) : string :=
  formatRankedRouteCacheKey (Denom tokenIn) tokenOutDenom
    (OrderOfMagnitude (Amount tokenIn)).

Definition rankedRoutesFor (cfg : RouterConfig) (ctx : Context) (tokenIn : Coin)
    (tokenOutDenom : string) : M (Quote * list RouteImpl) :=
  rankedRoutesData ← rankedRouteCache_Get (rankedRouteCacheKey tokenIn tokenOutDenom) ;
  requestURLPath ← call (GetURLPathFromContext ctx) ;
  match rankedRoutesData with
  | Some data =>
      rankedRoutesOnHit ctx (initializeRouter cfg) requestURLPath data tokenIn tokenOutDenom
  | None =>
      rankedRoutesOnMiss cfg ctx (initializeRouter cfg) requestURLPath tokenIn tokenOutDenom
        (OrderOfMagnitude (Amount tokenIn))
  end.

(** The inner loop of [GetCustomQuote] over the pools of one route, from
    index [i]; [poolIDs[i]] out of range is a panic. Returns [routeIndex]
    as the loop leaves it. *)
Fixpoint matchRoutePools (routePools : list RoutablePool) (i : nat) (len : nat)
    (poolIDs : list N) (curRouteIndex routeIndex : Z) : Result Z :=
  match routePools with
  | [] => Ok routeIndex
  | pool :: rest =>
      let poolID := GetId pool in
      match poolIDs !! i with
      | None => Err Panic
      | Some desiredPoolID =>
          if decide (poolID ≠ desiredPoolID) then Ok routeIndex
          else
            let routeIndex :=
              if decide (Z.of_nat i = Z.of_nat len - 1) then curRouteIndex
              else routeIndex in
            matchRoutePools rest (S i) len poolIDs curRouteIndex routeIndex
      end
  end.

(** The outer loop of [GetCustomQuote] over the routes, from index
    [curRouteIndex]. *)
Fixpoint findRouteIndex (routes : list RouteImpl) (curRouteIndex : Z) (poolIDs : list N)
    (routeIndex : Z) : Result Z :=
  match routes with
  | [] => Ok routeIndex
  | route :: rest =>
      let routePools := GetPools route in
      if decide (length routePools ≠ length poolIDs)
      then findRouteIndex rest (curRouteIndex + 1) poolIDs routeIndex
      else
        routeIndex ← matchRoutePools routePools 0 (length routePools) poolIDs
                       curRouteIndex routeIndex ;
        if decide (routeIndex ≠ -1) then Ok routeIndex
        else findRouteIndex rest (curRouteIndex + 1) poolIDs routeIndex
  end.

(** [GetCustomQuote]. *)
Definition GetCustomQuote (cfg : RouterConfig) (ctx : Context) (tokenIn : Coin)
    (tokenOutDenom : string) (poolIDs : list N) : M Quote :=
  let router := initializeRouter cfg in
  candidateRoutes ← handleCandidateRoutes cfg ctx router (Denom tokenIn) tokenOutDenom ;
  repo ← gets routerRepository ;
  takerFees ← call (GetAllTakerFees repo ctx) ;
  routes ← call (GetRoutesFromCandidates ctx candidateRoutes takerFees
                    (Denom tokenIn) tokenOutDenom) ;
  routeIndex ← lift (findRouteIndex routes 0 poolIDs (-1)) ;
  if decide (routeIndex = -1) then fail (NoMatchingRoute poolIDs)
  else if decide (Z.of_nat (length routes) ≤ routeIndex)
  then fail (RouteIndexOutOfBounds routeIndex)
  else
    foundRoute ← lift (index routes routeIndex) ;
    '(quote, _) ← call (estimateAndRankSingleRouteQuote router [foundRoute] tokenIn) ;
    mret quote.

End Usecase.

(** ** Test doubles

    Small implementations of the collaborators, in the manner of package
    [mocks] and of [TestHandleRoutes]: a repository over a map keyed by the
    sorted denom pair, a fixed pool list, a search that finds the
    single-hop routes, and an evaluator that charges each hop's taker fee
    and swaps one to one. *)

Module mocks.

(** [osmomath.Dec] has 18 decimal places. *)
Definition OneDec : Z := 10 ^ 18.

Record PoolWrapper := mkPoolWrapper {
  Id : N;
  PoolDenoms : list string;
  TakerFee : Z;
}.

Record RouterMock := mkRouterMock {
  splitRoutes : Z;
  sortedPools : list PoolWrapper;
}.

(** The sorted pair [domain.DenomPair] the mock repository is keyed by. *)
Definition DenomPair (denom0 denom1 : string) : string * string :=
  if String.ltb denom1 denom0 then (denom1, denom0) else (denom0, denom1).

#[export] Instance domain : Domain := {|
  Context := option string;
  Repository := gmap (string * string) CandidateRoutes;
  PoolI := PoolWrapper;
  TakerFeeMap := unit;
  Router := RouterMock;
|}.

Definition RedisRouterRepositoryMock_GetRoutes
    (repo : gmap (string * string) CandidateRoutes) (ctx : option string)
    (denom0 denom1 : string) : string + CandidateRoutes :=
  inr (default route.empty (repo !! DenomPair denom0 denom1)).

Definition RedisRouterRepositoryMock_SetRoutes
    (repo : gmap (string * string) CandidateRoutes) (ctx : option string)
    (denom0 denom1 : string) (routes : CandidateRoutes)
    : gmap (string * string) CandidateRoutes * option string :=
  (<[DenomPair denom0 denom1 := routes]> repo, None).

#[export] Instance RedisRouterRepositoryMock : @RouterRepository domain := {|
  GetRoutes := RedisRouterRepositoryMock_GetRoutes;
  SetRoutes := RedisRouterRepositoryMock_SetRoutes;
  GetAllTakerFees := λ _ _, inr tt;
|}.

Definition findPool (pools : list PoolWrapper) (id : N) : option PoolWrapper :=
  list_find (λ p, Id p = id) pools ≫= λ ip, Some ip.2.

Definition bindPool (pools : list PoolWrapper) (c : CandidatePool) : option RoutablePool :=
  match findPool pools (ID c) with
  | Some p => Some {| GetId := ID c; GetTokenOutDenom := TokenOutDenom c;
                    GetSpreadFactor := 0; GetTakerFee := TakerFee p |}
  | None => None
  end.

Definition bindCandidates (Pools : list PoolWrapper) (candidateRoutes : CandidateRoutes)
    : string + list RouteImpl :=
  match mapM (λ c, pools ← mapM (bindPool Pools) (route.Pools c) ;
                   Some {| GetPools := pools |})
          (Routes candidateRoutes) with
  | Some routes => inr routes
  | None => inl "pool not found"
  end.

#[export] Instance PoolsUsecaseMock (Pools : list PoolWrapper) : @PoolsUsecase domain := {|
  GetAllPools := λ _, inr Pools;
  GetRoutesFromCandidates := λ _ candidateRoutes _ _ _, bindCandidates Pools candidateRoutes;
|}.

(** Single-hop search over the router's pools. *)
Definition searchDirect (pools : list PoolWrapper) (tokenInDenom tokenOutDenom : string)
    : CandidateRoutes :=
  let direct := filter (λ p, tokenInDenom ∈ PoolDenoms p ∧ tokenOutDenom ∈ PoolDenoms p)
                  pools in
  {| Routes := (λ p, {| Pools := [{| ID := Id p; TokenOutDenom := tokenOutDenom |}] |})
                 <$> direct;
     UniquePoolIDs := list_to_set (Id <$> direct) |}.

(** The amount out of one route: every hop keeps its taker fee. *)
Definition amountOut (r : RouteImpl) (amountIn : Z) : Z :=
  foldl (λ amt p, amt * (OneDec - GetTakerFee p) / OneDec) amountIn (GetPools r).

Fixpoint insertByAmountOut (x : RouteWithOutAmount) (l : list RouteWithOutAmount)
    : list RouteWithOutAmount :=
  match l with
  | [] => [x]
  | y :: l' => if OutAmount y <? OutAmount x then x :: y :: l'
               else y :: insertByAmountOut x l'
  end.

Definition rankByAmountOut (routes : list RouteImpl) (amountIn : Z)
    : list RouteWithOutAmount :=
  foldr insertByAmountOut []
    ((λ r, {| RouteImpl_ := r; InAmount := amountIn; OutAmount := amountOut r amountIn |})
       <$> routes).

Definition estimateAndRank (routes : list RouteImpl) (tokenIn : Coin)
    : string + (Quote * list RouteWithOutAmount) :=
  match rankByAmountOut routes (Amount tokenIn) with
  | [] => inl "no routes were provided"
  | best :: rest =>
      inr ({| GetAmountIn := tokenIn; GetAmountOut := OutAmount best; GetRoute := [best] |},
          best :: rest)
  end.

(** An even split of the amount in over the given routes. *)
Definition splitEvenly (routes : list RouteImpl) (tokenIn : Coin) : string + Quote :=
  match routes with
  | [] => inl "no routes were provided"
  | _ :: _ =>
      let part := Amount tokenIn / Z.of_nat (length routes) in
      let parts := (λ r, {| RouteImpl_ := r; InAmount := part;
                            OutAmount := amountOut r part |}) <$> routes in
      inr {| GetAmountIn := tokenIn;
             GetAmountOut := foldr (λ p acc, OutAmount p + acc) 0 parts;
             GetRoute := parts |}
  end.

Definition NewRouterMock (maxSplitRoutes : Z) : RouterMock :=
  {| splitRoutes := maxSplitRoutes; sortedPools := [] |}.

Definition WithSortedPoolsMock (router : RouterMock) (allPools : list PoolWrapper)
    : RouterMock :=
  {| splitRoutes := splitRoutes router; sortedPools := allPools |}.

Definition urlPath (ctx : option string) : string + string :=
  match ctx with
  | Some path => inr path
  | None => inl "request path not in context"
  end.

(** The number of decimal digits less one. *)
Definition orderOfMagnitude (amount : Z) : Z :=
  Z.of_nat (String.length (pretty (Z.abs amount))) - 1.

#[export] Instance RouterAPIMock : @RouterAPI domain := {|
  NewRouter := λ _ _ _ maxSplitRoutes _ _, NewRouterMock maxSplitRoutes;
  WithSortedPools := WithSortedPoolsMock;
  maxSplitRoutes := splitRoutes;
  Router_GetCandidateRoutes := λ router tokenInDenom tokenOutDenom,
    inr (searchDirect (sortedPools router) tokenInDenom tokenOutDenom);
  estimateAndRankSingleRouteQuote := λ _ routes tokenIn, estimateAndRank routes tokenIn;
  GetSplitQuote := λ _ routes tokenIn, splitEvenly routes tokenIn;
  GetURLPathFromContext := urlPath;
  OrderOfMagnitude := orderOfMagnitude;
|}.

End mocks.

(** ** Scenarios

    Concrete runs over the test doubles, in the setting of
    [TestHandleRoutes]: denoms [uosmo] and [uion], a request path in the
    context, and pools that trade the pair directly. *)

Module scenarios.

Import mocks.

Definition uosmo : string := "uosmo".
Definition uion : string := "uion".

Definition ctx : option string := Some "/router/quote".

Definition config (routeCacheEnabled : bool) : RouterConfig :=
  {| PreferredPoolIDs := []; MaxPoolsPerRoute := 4; MaxRoutes := 4; MaxSplitRoutes := 3;
     MaxSplitIterations := 10; MinOSMOLiquidity := 10000; RouteUpdateHeightInterval := 10;
     RouteCacheEnabled := routeCacheEnabled |}.

(** Nothing cached anywhere, no metric counted. *)
Definition emptyState : State :=
  {| routerRepository := (∅ : gmap (string * string) CandidateRoutes);
     rankedRouteCache := ∅; cacheHits := ∅; cacheMisses := ∅ |}.

(** The route of [TestHandleRoutes] through pool 1, and a repository that
    already holds it for the pair. *)
Definition singleDefaultRoutes : CandidateRoutes :=
  {| Routes := [{| Pools := [{| ID := 1; TokenOutDenom := uion |}] |}];
     UniquePoolIDs := {[1%N]} |}.

Definition cachedState : State :=
  {| routerRepository :=
       ({[DenomPair uosmo uion := singleDefaultRoutes]}
          : gmap (string * string) CandidateRoutes);
     rankedRouteCache := ∅; cacheHits := ∅; cacheMisses := ∅ |}.

(** Pool 1 without a taker fee, pool 2 with a fee of 10%, and a pool 1
    that keeps half of what comes in. *)
Definition poolA : PoolWrapper :=
  {| Id := 1; PoolDenoms := [uosmo; uion]; TakerFee := 0 |}.
Definition poolB : PoolWrapper :=
  {| Id := 2; PoolDenoms := [uion; uosmo]; TakerFee := OneDec / 10 |}.
Definition halfFeePool : PoolWrapper :=
  {| Id := 1; PoolDenoms := [uosmo; uion]; TakerFee := OneDec / 2 |}.

Definition routeA : RouteImpl :=
  {| GetPools := [{| GetId := 1; GetTokenOutDenom := uion; GetSpreadFactor := 0;
                     GetTakerFee := 0 |}] |}.
Definition routeB : RouteImpl :=
  {| GetPools := [{| GetId := 2; GetTokenOutDenom := uion; GetSpreadFactor := 0;
                     GetTakerFee := OneDec / 10 |}] |}.
Definition halfFeeRoute : RouteImpl :=
  {| GetPools := [{| GetId := 1; GetTokenOutDenom := uion; GetSpreadFactor := 0;
                     GetTakerFee := OneDec / 2 |}] |}.

Definition twoRoutes : CandidateRoutes :=
  {| Routes := [{| Pools := [{| ID := 1; TokenOutDenom := uion |}] |};
                {| Pools := [{| ID := 2; TokenOutDenom := uion |}] |}];
     UniquePoolIDs := {[1%N; 2%N]} |}.

Definition thousand : Coin := {| Denom := uosmo; Amount := 1000 |}.
Definition oneUnit : Coin := {| Denom := uosmo; Amount := 1 |}.

(** What the evaluator and the splitter of the test doubles answer for
    1000uosmo over routes A and B. *)
Definition quoteA : Quote :=
  {| GetAmountIn := thousand; GetAmountOut := 1000;
     GetRoute := [{| RouteImpl_ := routeA; InAmount := 1000; OutAmount := 1000 |}] |}.
Definition quoteB : Quote :=
  {| GetAmountIn := thousand; GetAmountOut := 900;
     GetRoute := [{| RouteImpl_ := routeB; InAmount := 1000; OutAmount := 900 |}] |}.
Definition splitAB : Quote :=
  {| GetAmountIn := thousand; GetAmountOut := 950;
     GetRoute := [{| RouteImpl_ := routeA; InAmount := 500; OutAmount := 500 |};
                  {| RouteImpl_ := routeB; InAmount := 500; OutAmount := 450 |}] |}.

(** The quote for one uosmo through the pool that keeps half: nothing
    comes out. *)
Definition zeroQuote : Quote :=
  {| GetAmountIn := oneUnit; GetAmountOut := 0;
     GetRoute := [{| RouteImpl_ := halfFeeRoute; InAmount := 1; OutAmount := 0 |}] |}.

(** The use case over the test doubles with a given pool list. *)
Definition optimalQuote (pools : list PoolWrapper) (cfg : RouterConfig) (tokenIn : Coin)
    (s : State) : State * Result Quote :=
  GetOptimalQuote (PU := PoolsUsecaseMock pools) cfg ctx tokenIn uion s.

Definition candidateRoutesOf (pools : list PoolWrapper) (cfg : RouterConfig) (s : State)
    : State * Result CandidateRoutes :=
  handleCandidateRoutes (PU := PoolsUsecaseMock pools) cfg ctx (initializeRouter cfg)
    uosmo uion s.

Definition customQuote (pools : list PoolWrapper) (cfg : RouterConfig) (tokenIn : Coin)
    (poolIDs : list N) (s : State) : State * Result Quote :=
  GetCustomQuote (PU := PoolsUsecaseMock pools) cfg ctx tokenIn uion poolIDs s.

Definition cachedCandidateRoutes (cfg : RouterConfig) (s : State)
    : State * (CandidateRoutes * option Error) :=
  GetCachedCandidateRoutes cfg ctx uosmo uion s.

End scenarios.

(** ** The remaining operations of the use case *)

(** [domain.TakerFeeForPair]. *)
Record TakerFeeForPair := mkTakerFeeForPair {
  Denom0 : string;
  Denom1 : string;
  TakerFee : Z;
}.

(** What [GetTakerFee] needs besides: [PoolsUsecase.GetPool], the denoms
    of a pool and the lookup in a taker-fee map (an [osmomath.Dec]). *)
Class PoolReader `{Domain} := {
  GetPool : Context → N → string + PoolI;
  GetPoolDenoms : PoolI → list string;
  TakerFeeMap_GetTakerFee : TakerFeeMap → string → string → Z;
}.

(** The router's own single-route quote, used by
    [GetBestSingleRouteQuote]. *)
Class SingleRouteQuoter `{Domain} := {
  getBestSingleRouteQuote : Router → Coin → list RouteImpl → string + Quote;
}.

(** Whether a denom contains the separator of the ranked-route cache
    key. *)
Fixpoint hasSlash (denom : string) : bool :=
  match denom with
  | EmptyString => false
  | String c rest => if decide (c = "/"%char) then true else hasSlash rest
  end.

(** The two operations live in a module of the package's name, as
    [GetTakerFee] is also a getter of [domain.RoutablePool]. *)
Module usecase.

Section UsecaseRest.

Context {D : Domain} {RR : RouterRepository} {PU : PoolsUsecase} {RA : RouterAPI}
  {PR : PoolReader} {SQ : SingleRouteQuoter}.

(** [GetBestSingleRouteQuote]. *)
Definition GetBestSingleRouteQuote (cfg : RouterConfig) (ctx : Context) (tokenIn : Coin)
    (tokenOutDenom : string) : M Quote :=
  let router := initializeRouter cfg in
  candidateRoutes ← handleCandidateRoutes cfg ctx router (Denom tokenIn) tokenOutDenom ;
  repo ← gets routerRepository ;
  takerFees ← call (GetAllTakerFees repo ctx) ;
  routes ← call (GetRoutesFromCandidates ctx candidateRoutes takerFees
                    (Denom tokenIn) tokenOutDenom) ;
  call (getBestSingleRouteQuote router tokenIn routes).

(** The inner loop of [GetTakerFee]: [denom0] is [poolDenoms[i]] and
    [rest] holds [poolDenoms[i+1:]], over which [j] runs. *)
Definition appendTakerFees (takerFees : TakerFeeMap) (denom0 : string) (rest : list string)
    (result : list TakerFeeForPair) : list TakerFeeForPair :=
  foldl (λ result denom1,
           result ++ [{| Denom0 := denom0; Denom1 := denom1;
                         TakerFee := TakerFeeMap_GetTakerFee takerFees denom0 denom1 |}])
    result rest.

(** The outer loop of [GetTakerFee] over [poolDenoms]. *)
Fixpoint takerFeesForPairs (takerFees : TakerFeeMap) (poolDenoms : list string)
    (result : list TakerFeeForPair) : list TakerFeeForPair :=
  match poolDenoms with
  | [] => result
  | denom0 :: rest =>
      takerFeesForPairs takerFees rest (appendTakerFees takerFees denom0 rest result)
  end.

(** [GetTakerFee]. *)
Definition GetTakerFee (ctx : Context) (poolID : N) : M (list TakerFeeForPair) :=
  repo ← gets routerRepository ;
  takerFees ← call (GetAllTakerFees repo ctx) ;
  pool ← call (GetPool ctx poolID) ;
  let poolDenoms := GetPoolDenoms pool in
  mret (takerFeesForPairs takerFees poolDenoms []).

End UsecaseRest.

End usecase.

(** A pool reader over a fixed pool list and a fee for every pair. *)
Module poolmocks.

Import mocks.

Definition findPoolByID (pools : list mocks.PoolWrapper) (ctx : option string) (id : N)
    : string + mocks.PoolWrapper :=
  match mocks.findPool pools id with
  | Some pool => inr pool
  | None => inl "pool not found"
  end.

#[export] Instance PoolReaderMock (pools : list mocks.PoolWrapper)
    (fee : string → string → Z) : @PoolReader mocks.domain := {|
  GetPool := findPoolByID pools;
  GetPoolDenoms := mocks.PoolDenoms;
  TakerFeeMap_GetTakerFee := λ _, fee;
|}.

(** The best single route is the top of the evaluator's ranking. *)
Definition topOfRanking (tokenIn : Coin) (routes : list RouteImpl) : string + Quote :=
  match mocks.estimateAndRank routes tokenIn with
  | inl msg => inl msg
  | inr (quote, _) => inr quote
  end.

#[export] Instance SingleRouteQuoterMock : @SingleRouteQuoter mocks.domain := {|
  getBestSingleRouteQuote := λ _, topOfRanking;
|}.

(** A pool over three denoms and a fee that tells the pairs apart. *)
Definition threeDenomPool : mocks.PoolWrapper :=
  {| mocks.Id := 7; mocks.PoolDenoms := ["uatom"; "uion"; "uosmo"]; mocks.TakerFee := 0 |}.

Definition lengthFee (denom0 denom1 : string) : Z :=
  Z.of_nat (String.length denom0) * 10 + Z.of_nat (String.length denom1).

(** Routes A and B of the scenarios with other fees bound to them. *)
Definition routeA' : RouteImpl :=
  {| GetPools := [{| GetId := 1; GetTokenOutDenom := "uion"; GetSpreadFactor := 3;
                     GetTakerFee := 5 |}] |}.
Definition routeAB : RouteImpl :=
  {| GetPools := [{| GetId := 1; GetTokenOutDenom := "uatom"; GetSpreadFactor := 0;
                     GetTakerFee := 0 |};
                  {| GetId := 2; GetTokenOutDenom := "uion"; GetSpreadFactor := 0;
                     GetTakerFee := 0 |}] |}.

(** A ranked-route cache whose entry for 1000uosmo to uion is not a
    [CandidateRoutes]. *)
Definition poisonedState : State :=
  {| routerRepository := (∅ : gmap (string * string) CandidateRoutes);
     rankedRouteCache :=
       {["uosmo/uion/3" := {| Value := OtherValue "split"; Expiration := 0 |}]};
     cacheHits := ∅; cacheMisses := ∅ |}.

(** A ranked-route cache that already holds route B for the request. *)
Definition rankedState : State :=
  {| routerRepository := (∅ : gmap (string * string) CandidateRoutes);
     rankedRouteCache :=
       {["uosmo/uion/3" :=
           {| Value := CandidateRoutesValue
                         {| Routes := [{| Pools := [{| ID := 2; TokenOutDenom := "uion" |}] |}];
                            UniquePoolIDs := {[2%N]} |};
              Expiration := 300000000000 |}]};
     cacheHits := ∅; cacheMisses := ∅ |}.

End poolmocks.

(** ** Lemmas on the overlap filter *)

Section Filter.

Implicit Types (r : RouteImpl) (rs : list RouteImpl) (c : gset N).

Lemma scanRoutePools_disjoint c pools current :
  list_to_set (GetId <$> pools) ## c →
  scanRoutePools c pools false current
    = (false, list_to_set (GetId <$> pools) ∪ current).
Proof.
  revert current. induction pools as [|p ps IH]; intros current Hd; simpl.
  - f_equal. set_solver.
  - simpl in Hd. rewrite bool_decide_eq_false_2 by set_solver.
    rewrite IH by set_solver. f_equal. set_solver.
Qed.

Lemma scanRoutePools_overlap c pools b current :
  ¬ list_to_set (GetId <$> pools) ## c →
  (scanRoutePools c pools b current).1 = true.
Proof.
  revert b current. induction pools as [|p ps IH]; intros b current Hd; simpl.
  - exfalso. apply Hd. set_solver.
  - case_bool_decide as Hin; [done|]. apply IH. set_solver.
Qed.

(** One iteration of the outer loop. *)
Lemma filterLoop_cons r rs c filtered :
  filterLoop (r :: rs) c filtered =
    if decide (routePoolIDs r ## c)
    then filterLoop rs (routePoolIDs r ∪ c) (filtered ++ [r])
    else filterLoop rs c filtered.
Proof.
  simpl. destruct (decide (routePoolIDs r ## c)) as [Hd|Hd].
  - unfold routePoolIDs in *. by rewrite scanRoutePools_disjoint, union_empty_r_L.
  - pose proof (scanRoutePools_overlap c (GetPools r) false ∅ Hd) as Hs.
    destruct (scanRoutePools c (GetPools r) false ∅) as [e cur]; simpl in Hs.
    by subst e.
Qed.

Lemma acceptedPoolIDs_snoc rs r :
  acceptedPoolIDs (rs ++ [r]) = routePoolIDs r ∪ acceptedPoolIDs rs.
Proof.
  unfold acceptedPoolIDs. rewrite fmap_app, union_list_app_L. simpl.
  set_solver.
Qed.

Lemma elem_of_acceptedPoolIDs rs x :
  x ∈ acceptedPoolIDs rs ↔ ∃ r, r ∈ rs ∧ x ∈ routePoolIDs r.
Proof.
  unfold acceptedPoolIDs. rewrite elem_of_union_list. split.
  - intros (X & HX & Hx). apply list_elem_of_fmap in HX as (r & -> & Hr). eauto.
  - intros (r & Hr & Hx). exists (routePoolIDs r). split; [|done].
    apply list_elem_of_fmap. eauto.
Qed.

(** The loop run on a concatenation is the loop run on the second part
    from the state reached after the first; [combinedPoolIDsMap] is
    always the set of pool ids of the routes accepted so far. *)
Lemma filterLoop_app rs1 rs2 filtered :
  filterLoop (rs1 ++ rs2) (acceptedPoolIDs filtered) filtered =
    filterLoop rs2
      (acceptedPoolIDs (filterLoop rs1 (acceptedPoolIDs filtered) filtered))
      (filterLoop rs1 (acceptedPoolIDs filtered) filtered).
Proof.
  revert filtered. induction rs1 as [|r rs1 IH]; intros filtered; [done|].
  rewrite <- app_comm_cons, !filterLoop_cons.
  destruct (decide (routePoolIDs r ## acceptedPoolIDs filtered)); [|apply IH].
  rewrite <- acceptedPoolIDs_snoc. apply IH.
Qed.

(** Processing one more route: it is appended exactly when none of its
    pool ids belongs to a route accepted before it. *)
Lemma filterDuplicatePoolIDRoutes_snoc rs r :
  filterDuplicatePoolIDRoutes (rs ++ [r]) =
    if decide (routePoolIDs r ## acceptedPoolIDs (filterDuplicatePoolIDRoutes rs))
    then filterDuplicatePoolIDRoutes rs ++ [r]
    else filterDuplicatePoolIDRoutes rs.
Proof.
  unfold filterDuplicatePoolIDRoutes.
  change (∅ : gset N) with (acceptedPoolIDs []).
  rewrite filterLoop_app, filterLoop_cons. by case_decide.
Qed.

Lemma filterDuplicatePoolIDRoutes_sublist rs :
  sublist (filterDuplicatePoolIDRoutes rs) rs.
Proof.
  induction rs as [|r rs IH] using rev_ind; [constructor|].
  rewrite filterDuplicatePoolIDRoutes_snoc. case_decide.
  - by apply sublist_app.
  - by apply sublist_inserts_r.
Qed.

Lemma PairwisePoolDisjoint_snoc rs r :
  PairwisePoolDisjoint rs → routePoolIDs r ## acceptedPoolIDs rs →
  PairwisePoolDisjoint (rs ++ [r]).
Proof.
  intros Hrs Hr i j ri rj Hij Hi Hj.
  destruct (decide (j < length rs)%nat) as [Hlt|Hge].
  - rewrite lookup_app_l in Hi, Hj by lia. eauto.
  - pose proof (lookup_lt_Some _ _ _ Hj) as Hjlen. rewrite length_app in Hjlen.
    simpl in Hjlen. assert (j = length rs) as -> by lia.
    rewrite lookup_app_l in Hi by lia.
    rewrite list_lookup_middle in Hj by done. simplify_eq.
    apply list_elem_of_lookup_2 in Hi.
    intros x Hx1 Hx2. apply (Hr x Hx2), elem_of_acceptedPoolIDs. eauto.
Qed.

Lemma filterDuplicatePoolIDRoutes_disjoint rs :
  PairwisePoolDisjoint (filterDuplicatePoolIDRoutes rs).
Proof.
  induction rs as [|r rs IH] using rev_ind.
  - intros i j ri rj _ Hi. done.
  - rewrite filterDuplicatePoolIDRoutes_snoc. case_decide; [|done].
    by apply PairwisePoolDisjoint_snoc.
Qed.

(** A non-empty input always keeps its first route. *)
Lemma filterDuplicatePoolIDRoutes_cons r rs :
  ∃ rest, filterDuplicatePoolIDRoutes (r :: rs) = r :: rest.
Proof.
  induction rs as [|r' rs IH] using rev_ind.
  - exists []. change [r] with ([] ++ [r]).
    rewrite filterDuplicatePoolIDRoutes_snoc. simpl.
    rewrite decide_True; [done|]. unfold acceptedPoolIDs. set_solver.
  - destruct IH as [rest IH]. rewrite app_comm_cons.
    rewrite filterDuplicatePoolIDRoutes_snoc, IH.
    case_decide; eauto.
Qed.

End Filter.

(** ** Lemmas on the conversion *)

Section Convert.

Implicit Types (r : RouteImpl) (rs : list RouteImpl).

Lemma convertPools_spec pools acc ids :
  convertPools pools acc ids =
    (acc ++ ((λ p, {| ID := GetId p; TokenOutDenom := GetTokenOutDenom p |}) <$> pools),
     list_to_set (GetId <$> pools) ∪ ids).
Proof.
  revert acc ids. induction pools as [|p ps IH]; intros acc ids; simpl.
  - rewrite app_nil_r. f_equal. set_solver.
  - rewrite IH, <- app_assoc. f_equal. set_solver.
Qed.

Lemma convertLoop_spec rs acc :
  convertLoop rs acc =
    {| Routes := Routes acc ++ (toCandidateRoute <$> rs);
       UniquePoolIDs := acceptedPoolIDs rs ∪ UniquePoolIDs acc |}.
Proof.
  revert acc. induction rs as [|r rs IH]; intros [routes ids]; simpl.
  - rewrite app_nil_r. f_equal. unfold acceptedPoolIDs. set_solver.
  - rewrite convertPools_spec, IH. simpl. rewrite <- app_assoc. f_equal.
    unfold acceptedPoolIDs, routePoolIDs. simpl. set_solver.
Qed.

Lemma convertRankedToCandidateRoutes_spec rs :
  convertRankedToCandidateRoutes rs =
    {| Routes := toCandidateRoute <$> rs; UniquePoolIDs := acceptedPoolIDs rs |}.
Proof.
  unfold convertRankedToCandidateRoutes. rewrite convertLoop_spec. simpl.
  f_equal. set_solver.
Qed.

Lemma candidateSteps_toCandidateRoute r :
  candidateSteps (toCandidateRoute r) = routeSteps r.
Proof.
  unfold candidateSteps, routeSteps, toCandidateRoute. simpl.
  rewrite <- list_fmap_compose. done.
Qed.

Lemma candidatePoolIDs_toCandidateRoute r :
  candidatePoolIDs (toCandidateRoute r) = routePoolIDs r.
Proof.
  unfold candidatePoolIDs, routePoolIDs, toCandidateRoute. simpl.
  rewrite <- list_fmap_compose. done.
Qed.

Lemma CandidatesPoolDisjoint_convert rs :
  PairwisePoolDisjoint rs →
  CandidatesPoolDisjoint (Routes (convertRankedToCandidateRoutes rs)).
Proof.
  intros Hrs i j ci cj Hij Hi Hj.
  rewrite convertRankedToCandidateRoutes_spec in Hi, Hj. simpl in Hi, Hj.
  rewrite list_lookup_fmap in Hi, Hj.
  destruct (rs !! i) as [ri|] eqn:Ei; [|done].
  destruct (rs !! j) as [rj|] eqn:Ej; [|done].
  simpl in Hi, Hj. simplify_eq.
  rewrite !candidatePoolIDs_toCandidateRoute. eauto.
Qed.

End Convert.

(** ** The overlap filter and the conversion: main results *)

(** C3. [filterDuplicatePoolIDRoutes] walks the routes in order and accepts
    a route exactly when none of its pool ids occurs in a route accepted
    before it: (1) processing one more route appends it if its pool ids are
    disjoint from those of the routes accepted so far, and drops it
    otherwise, so only accepted routes are ever recorded; (2) the output is
    a subsequence of the input; (3) two output routes at different
    positions share no pool id; (4) a single route is kept whatever pool
    ids repeat inside it, and so is the first route of any input. *)
Theorem filterDuplicatePoolIDRoutes_correct (rankedRoutes : list RouteImpl) :
  (∀ pre r,
     (routePoolIDs r ## acceptedPoolIDs (filterDuplicatePoolIDRoutes pre) →
        filterDuplicatePoolIDRoutes (pre ++ [r]) = filterDuplicatePoolIDRoutes pre ++ [r]) ∧
     (¬ routePoolIDs r ## acceptedPoolIDs (filterDuplicatePoolIDRoutes pre) →
        filterDuplicatePoolIDRoutes (pre ++ [r]) = filterDuplicatePoolIDRoutes pre)) ∧
  sublist (filterDuplicatePoolIDRoutes rankedRoutes) rankedRoutes ∧
  PairwisePoolDisjoint (filterDuplicatePoolIDRoutes rankedRoutes) ∧
  (∀ r, filterDuplicatePoolIDRoutes [r] = [r]) ∧
  (∀ r rs, ∃ rest, filterDuplicatePoolIDRoutes (r :: rs) = r :: rest).
Proof.
  split_and!.
  - intros pre r. rewrite filterDuplicatePoolIDRoutes_snoc.
    split; intros Hd; case_decide; done.
  - apply filterDuplicatePoolIDRoutes_sublist.
  - apply filterDuplicatePoolIDRoutes_disjoint.
  - intros r. destruct (filterDuplicatePoolIDRoutes_cons r []) as [rest Hrest].
    pose proof (filterDuplicatePoolIDRoutes_sublist [r]) as Hsub.
    rewrite Hrest in Hsub |- *. apply sublist_length in Hsub. simpl in Hsub.
    destruct rest; [done|simpl in Hsub; lia].
  - apply filterDuplicatePoolIDRoutes_cons.
Qed.

(** C9. [convertRankedToCandidateRoutes] keeps the routes position by
    position, each with the same ordered [(pool id, token out denom)]
    steps, and [UniquePoolIDs] is the union of the pool ids of all input
    routes: an id belongs to it exactly when some pool of some input route
    has it. *)
Theorem convertRankedToCandidateRoutes_correct (rankedRoutes : list RouteImpl) :
  length (Routes (convertRankedToCandidateRoutes rankedRoutes)) = length rankedRoutes ∧
  (∀ i r, rankedRoutes !! i = Some r →
     ∃ c, Routes (convertRankedToCandidateRoutes rankedRoutes) !! i = Some c ∧
          candidateSteps c = routeSteps r) ∧
  UniquePoolIDs (convertRankedToCandidateRoutes rankedRoutes)
    = ⋃ (routePoolIDs <$> rankedRoutes) ∧
  (∀ id, id ∈ UniquePoolIDs (convertRankedToCandidateRoutes rankedRoutes) ↔
     ∃ r pool, r ∈ rankedRoutes ∧ pool ∈ GetPools r ∧ GetId pool = id).
Proof.
  rewrite convertRankedToCandidateRoutes_spec. simpl. split_and!.
  - by rewrite length_fmap.
  - intros i r Hi. exists (toCandidateRoute r). split.
    + by rewrite list_lookup_fmap, Hi.
    + apply candidateSteps_toCandidateRoute.
  - done.
  - intros id. rewrite elem_of_acceptedPoolIDs. unfold routePoolIDs. split.
    + intros (r & Hr & Hid). apply elem_of_list_to_set in Hid.
      apply list_elem_of_fmap in Hid as (pool & -> & Hpool). eauto.
    + intros (r & pool & Hr & Hpool & <-). exists r. split; [done|].
      apply elem_of_list_to_set, list_elem_of_fmap. eauto.
Qed.

(** ** Lemmas on the use case *)

(** Unfolds the operations of [M] so that a method reads as a case
    analysis on the answers of its collaborators. *)
Ltac unfold_M :=
  unfold incCacheHits, incCacheMisses, rankedRouteCache_Get, rankedRouteCache_Set,
    routerRepository_SetRoutes, call, lift, gets, modify, fail,
    mbind, M_bind, mret, M_ret in *.

(** Splits on every remaining answer and closes the frame goals. *)
Ltac by_cases := repeat case_match; simplify_eq/=; try done.

Section UsecaseLemmas.

Context {D : Domain} {RR : RouterRepository} {PU : PoolsUsecase} {RA : RouterAPI}.

Implicit Types (s : State) (cfg : RouterConfig) (ctx : Context) (router : Router).

(** Ranking reads the repository and the pools; it writes nothing. *)
Lemma rankRoutesByDirectQuote_state ctx router candidateRoutes tokenIn tokenOutDenom s :
  (rankRoutesByDirectQuote ctx router candidateRoutes tokenIn tokenOutDenom s).1 = s.
Proof. unfold rankRoutesByDirectQuote. unfold_M. by_cases. Qed.

(** So does the selection of the final quote. *)
Lemma selectQuote_state router tokenIn topSingleRouteQuote rankedRoutes s :
  (selectQuote router tokenIn topSingleRouteQuote rankedRoutes s).1 = s.
Proof. unfold selectQuote. unfold_M. by_cases. Qed.

(** [handleCandidateRoutes] never touches the ranked-route cache. *)
Lemma handleCandidateRoutes_rankedRouteCache cfg ctx router tokenInDenom tokenOutDenom s :
  rankedRouteCache (handleCandidateRoutes cfg ctx router tokenInDenom tokenOutDenom s).1
    = rankedRouteCache s.
Proof. unfold handleCandidateRoutes. unfold_M. by_cases. Qed.

(** With the route cache disabled it does not touch the repository
    either. *)
Lemma handleCandidateRoutes_repository_disabled cfg ctx router tokenInDenom tokenOutDenom s :
  RouteCacheEnabled cfg = false →
  routerRepository (handleCandidateRoutes cfg ctx router tokenInDenom tokenOutDenom s).1
    = routerRepository s.
Proof.
  intros Hoff. unfold handleCandidateRoutes. rewrite Hoff. unfold_M.
  by_cases; match goal with Hb : _ && false = true |- _ => by rewrite andb_false_r in Hb end.
Qed.

(** C6. [handleCandidateRoutes], once the request path is read from the
    context.  Hit: with the route cache enabled and a non-empty
    [CandidateRoutes] in the repository, exactly that value is returned;
    only the hit counter changes, so nothing is written to the repository,
    and no pool list or search result enters the answer.  Miss (cache
    disabled, or nothing cached): the routes are computed by the search
    over the pool snapshot and [SetRoutes] is called with them exactly when
    they are non-empty and the route cache is enabled; otherwise the
    repository stays as it was. *)
Theorem handleCandidateRoutes_cache_policy cfg ctx router tokenInDenom tokenOutDenom s path :
  GetURLPathFromContext ctx = inr path →
  let labels := (path, candidateRouteCacheLabel, tokenInDenom, tokenOutDenom) in
  (∀ cached,
     RouteCacheEnabled cfg = true →
     GetRoutes (routerRepository s) ctx tokenInDenom tokenOutDenom = inr cached →
     Routes cached ≠ [] →
     handleCandidateRoutes cfg ctx router tokenInDenom tokenOutDenom s
       = (withCacheHit labels s, Ok cached)) ∧
  (∀ allPools computed,
     (RouteCacheEnabled cfg = false ∨
      ∃ cached, GetRoutes (routerRepository s) ctx tokenInDenom tokenOutDenom = inr cached
                ∧ Routes cached = []) →
     GetAllPools ctx = inr allPools →
     Router_GetCandidateRoutes (WithSortedPools router allPools) tokenInDenom tokenOutDenom
       = inr computed →
     handleCandidateRoutes cfg ctx router tokenInDenom tokenOutDenom s =
       if bool_decide (Routes computed ≠ []) && RouteCacheEnabled cfg
       then
         let written :=
           SetRoutes (routerRepository s) ctx tokenInDenom tokenOutDenom computed in
         (withRepository written.1 (withCacheMiss labels s),
          match written.2 with
          | Some msg => Err (CollaboratorError msg)
          | None => Ok computed
          end)
       else (withCacheMiss labels s, Ok computed)).
Proof.
  intros Hpath labels. split.
  - intros cached Hon Hget Hne. unfold handleCandidateRoutes. rewrite Hon. unfold_M.
    rewrite Hget, Hpath. simpl. destruct (Routes cached); [done|]. done.
  - intros allPools computed Hmiss Hpools Hsearch.
    assert (∃ cached, Routes cached = [] ∧
              (if RouteCacheEnabled cfg
               then repo ← gets routerRepository ;
                    call (GetRoutes repo ctx tokenInDenom tokenOutDenom)
               else mret route.empty) s = (s, Ok cached)) as (cached & Hnil & Hread).
    { destruct (RouteCacheEnabled cfg) eqn:Hen; [|by exists route.empty].
      destruct Hmiss as [Hoff|(cached & Hget & Hnil)]; [done|].
      exists cached. split; [done|]. unfold_M. simpl. by rewrite Hget. }
    unfold handleCandidateRoutes.
    unfold mbind at 1. unfold M_bind at 1. rewrite Hread. clear Hread.
    unfold_M. rewrite Hpath, Hnil. simpl. rewrite Hpools. simpl. rewrite Hsearch. simpl.
    destruct (Routes computed) as [|c cs] eqn:Hc; simpl.
    + done.
    + destruct (RouteCacheEnabled cfg); simpl; [|done].
      destruct (SetRoutes _ _ _ _ _) as [repo [msg|]]; done.
Qed.

(** [GetOptimalQuote] is its first phase followed by the selection. *)
Lemma GetOptimalQuote_phases cfg ctx tokenIn tokenOutDenom s :
  GetOptimalQuote cfg ctx tokenIn tokenOutDenom s =
    match rankedRoutesFor cfg ctx tokenIn tokenOutDenom s with
    | (s', Ok (topSingleRouteQuote, rankedRoutes)) =>
        selectQuote (initializeRouter cfg) tokenIn topSingleRouteQuote rankedRoutes s'
    | (s', Err e) => (s', Err e)
    end.
Proof.
  unfold GetOptimalQuote, rankedRoutesFor, rankedRouteCacheKey. unfold_M.
  destruct (ofReply (GetURLPathFromContext ctx)); [|done].
  by destruct (Cache_Get _ _); case_match; by_cases.
Qed.

(** The miss branch, step by step.  The filtered list is never empty
    here, because the first ranked route always passes the filter. *)
Lemma rankedRoutesOnMiss_spec cfg ctx router path tokenIn tokenOutDenom omag s :
  rankedRoutesOnMiss cfg ctx router path tokenIn tokenOutDenom omag s =
    match handleCandidateRoutes cfg ctx router (Denom tokenIn) tokenOutDenom
            (withCacheMiss (path, rankedRouteCacheLabel, Denom tokenIn, tokenOutDenom) s) with
    | (s1, Err e) => (s1, Err e)
    | (s1, Ok candidateRoutes) =>
        match (rankRoutesByDirectQuote ctx router candidateRoutes tokenIn tokenOutDenom s1).2 with
        | Err e => (s1, Err e)
        | Ok (topSingleRouteQuote, rankedRoutes) =>
            if decide (rankedRoutes = []) then (s1, Err NoRankedRoutes)
            else
              (withRankedRouteCache
                 (Cache_Set (rankedRouteCache s1)
                    (formatRankedRouteCacheKey (Denom tokenIn) tokenOutDenom omag)
                    (CandidateRoutesValue
                       (convertRankedToCandidateRoutes
                          (filterDuplicatePoolIDRoutes rankedRoutes)))
                    (Minute * 5)) s1,
               Ok (topSingleRouteQuote, filterDuplicatePoolIDRoutes rankedRoutes))
        end
    end.
Proof.
  unfold rankedRoutesOnMiss.
  unfold incCacheMisses, modify, mbind at 1 2, M_bind at 1 2.
  destruct (handleCandidateRoutes _ _ _ _ _ _) as [s1 [candidateRoutes|e]]; [|done].
  unfold mbind, M_bind.
  pose proof (rankRoutesByDirectQuote_state ctx router candidateRoutes tokenIn
                tokenOutDenom s1) as Hst.
  destruct (rankRoutesByDirectQuote _ _ _ _ _ _) as [s2 [[top ranked]|e]];
    simpl in Hst; subst s2; simpl; [|done].
  destruct ranked as [|r rs]; [done|].
  rewrite decide_False by done. rewrite (decide_False (P := r :: rs = [])) by done.
  destruct (filterDuplicatePoolIDRoutes_cons r rs) as [rest ->]. simpl.
  done.
Qed.

(** The first phase: the request path is read first of all that can
    fail, then the hit or the miss branch runs. *)
Lemma rankedRoutesFor_spec cfg ctx tokenIn tokenOutDenom s :
  rankedRoutesFor cfg ctx tokenIn tokenOutDenom s =
    match GetURLPathFromContext ctx with
    | inl msg => (s, Err (CollaboratorError msg))
    | inr path =>
        match Cache_Get (rankedRouteCache s) (rankedRouteCacheKey tokenIn tokenOutDenom) with
        | Some data =>
            rankedRoutesOnHit ctx (initializeRouter cfg) path data tokenIn tokenOutDenom s
        | None =>
            rankedRoutesOnMiss cfg ctx (initializeRouter cfg) path tokenIn tokenOutDenom
              (OrderOfMagnitude (Amount tokenIn)) s
        end
    end.
Proof.
  unfold rankedRoutesFor.
  unfold rankedRouteCache_Get, gets, call, lift, mbind at 1 2, M_bind at 1 2.
  destruct (GetURLPathFromContext ctx) as [msg|path]; [done|]. simpl.
  by destruct (Cache_Get _ _).
Qed.

(** The first phase changes the ranked-route cache by at most one write,
    made on a miss under the key of the request, of the converted,
    overlap-filtered ranked routes. *)
Lemma rankedRoutesFor_rankedRouteCache cfg ctx tokenIn tokenOutDenom s :
  let s' := (rankedRoutesFor cfg ctx tokenIn tokenOutDenom s).1 in
  rankedRouteCache s' = rankedRouteCache s ∨
  (Cache_Get (rankedRouteCache s) (rankedRouteCacheKey tokenIn tokenOutDenom) = None ∧
   ∃ rankedRoutes,
     filterDuplicatePoolIDRoutes rankedRoutes ≠ [] ∧
     rankedRouteCache s' =
       Cache_Set (rankedRouteCache s) (rankedRouteCacheKey tokenIn tokenOutDenom)
         (CandidateRoutesValue
            (convertRankedToCandidateRoutes (filterDuplicatePoolIDRoutes rankedRoutes)))
         (Minute * 5)).
Proof.
  cbv zeta. rewrite rankedRoutesFor_spec.
  destruct (GetURLPathFromContext ctx) as [msg|path]; [by left|].
  destruct (Cache_Get _ _) as [data|] eqn:Hget.
  - left. unfold rankedRoutesOnHit. unfold_M. destruct data; [|done].
    by rewrite rankRoutesByDirectQuote_state.
  - rewrite rankedRoutesOnMiss_spec.
    pose proof (handleCandidateRoutes_rankedRouteCache cfg ctx (initializeRouter cfg)
                  (Denom tokenIn) tokenOutDenom
                  (withCacheMiss (path, rankedRouteCacheLabel, Denom tokenIn, tokenOutDenom) s))
      as Hc.
    destruct (handleCandidateRoutes _ _ _ _ _ _) as [s1 [candidateRoutes|e]];
      simpl in Hc; [|by left].
    destruct (rankRoutesByDirectQuote _ _ _ _ _ _).2 as [[top ranked]|e]; [|by left].
    case_decide as Hr; [by left|]. right. split; [done|]. exists ranked. simpl.
    rewrite Hc. split; [|done].
    destruct ranked as [|r rs]; [done|].
    by destruct (filterDuplicatePoolIDRoutes_cons r rs) as [rest ->].
Qed.

(** With the route cache disabled the first phase leaves the repository
    alone. *)
Lemma rankedRoutesFor_repository_disabled cfg ctx tokenIn tokenOutDenom s :
  RouteCacheEnabled cfg = false →
  routerRepository (rankedRoutesFor cfg ctx tokenIn tokenOutDenom s).1 = routerRepository s.
Proof.
  intros Hoff. rewrite rankedRoutesFor_spec.
  destruct (GetURLPathFromContext ctx) as [msg|path]; [done|].
  destruct (Cache_Get _ _) as [data|] eqn:Hget.
  - unfold rankedRoutesOnHit. unfold_M. destruct data; [|done].
    by rewrite rankRoutesByDirectQuote_state.
  - rewrite rankedRoutesOnMiss_spec.
    pose proof (handleCandidateRoutes_repository_disabled cfg ctx (initializeRouter cfg)
                  (Denom tokenIn) tokenOutDenom
                  (withCacheMiss (path, rankedRouteCacheLabel, Denom tokenIn, tokenOutDenom) s)
                  Hoff) as Hc.
    destruct (handleCandidateRoutes _ _ _ _ _ _) as [s1 [candidateRoutes|e]];
      simpl in Hc; [|done].
    destruct (rankRoutesByDirectQuote _ _ _ _ _ _).2 as [[top ranked]|e]; [|done].
    by case_decide.
Qed.

(** The state [GetOptimalQuote] leaves is the state after its first
    phase. *)
Lemma GetOptimalQuote_state cfg ctx tokenIn tokenOutDenom s :
  (GetOptimalQuote cfg ctx tokenIn tokenOutDenom s).1
    = (rankedRoutesFor cfg ctx tokenIn tokenOutDenom s).1.
Proof.
  rewrite GetOptimalQuote_phases.
  destruct (rankedRoutesFor _ _ _ _ _) as [s' [[top ranked]|e]]; [|done].
  by rewrite selectQuote_state.
Qed.

(** The selection when the split runs: the better quote, unless it is
    worth nothing. *)
Lemma selectQuote_split router tokenIn top rankedRoutes split s :
  length rankedRoutes ≠ 1%nat →
  GetSplitQuote router rankedRoutes tokenIn = inr split →
  let best := if GetAmountOut top <? GetAmountOut split then split else top in
  GetRoute best ≠ [] →
  selectQuote router tokenIn top rankedRoutes s =
    (s, if GetAmountOut best =? 0 then Err ZeroOutput else Ok best).
Proof.
  intros Hlen Hsplit best Hroute. unfold selectQuote.
  rewrite decide_False by done. unfold_M. rewrite Hsplit. simpl.
  fold best. destruct (GetRoute best); [done|]. by destruct (_ =? _).
Qed.

(** The selection when exactly one ranked route is left: the top single
    quote goes out as it is. *)
Lemma selectQuote_single router tokenIn top rankedRoutes s :
  length rankedRoutes = 1%nat →
  selectQuote router tokenIn top rankedRoutes s = (s, Ok top).
Proof. intros Hlen. unfold selectQuote. by rewrite decide_True. Qed.

(** With exactly one ranked route left, [GetOptimalQuote] returns the top
    single quote whatever its amount out. *)
Lemma GetOptimalQuote_single_route cfg ctx tokenIn tokenOutDenom s s' top rankedRoutes :
  rankedRoutesFor cfg ctx tokenIn tokenOutDenom s = (s', Ok (top, rankedRoutes)) →
  length rankedRoutes = 1%nat →
  GetOptimalQuote cfg ctx tokenIn tokenOutDenom s = (s', Ok top).
Proof.
  intros Hranked Hlen. rewrite GetOptimalQuote_phases, Hranked.
  by apply selectQuote_single.
Qed.

(** On the other path a returned quote never has a zero amount out. *)
Lemma GetOptimalQuote_split_path_nonzero cfg ctx tokenIn tokenOutDenom s s' top
    rankedRoutes quote :
  rankedRoutesFor cfg ctx tokenIn tokenOutDenom s = (s', Ok (top, rankedRoutes)) →
  length rankedRoutes ≠ 1%nat →
  (GetOptimalQuote cfg ctx tokenIn tokenOutDenom s).2 = Ok quote →
  GetAmountOut quote ≠ 0.
Proof.
  intros Hranked Hlen. rewrite GetOptimalQuote_phases, Hranked.
  unfold selectQuote. rewrite decide_False by done. unfold_M.
  destruct (ofReply (GetSplitQuote _ _ _)) as [split|e]; simpl; [|done].
  destruct (GetRoute _); [done|].
  destruct (Z.eqb_spec (GetAmountOut
              (if GetAmountOut top <? GetAmountOut split then split else top)) 0)
    as [Hz|Hz]; simpl; [done|].
  by intros [= <-].
Qed.

(** C5. When more than one ranked route reaches the selection and the
    splitter answers, [GetOptimalQuote] settles on the better of the top
    single-route quote and the split quote (the split one only if strictly
    better): its amount out is the maximum of the two, hence at least the
    single-route amount, and that quote is returned unless its amount out
    is zero.  The chosen quote must list a route, which the last debug
    line reads. *)
Theorem GetOptimalQuote_better_of_single_and_split
    cfg ctx tokenIn tokenOutDenom s s' top rankedRoutes split :
  rankedRoutesFor cfg ctx tokenIn tokenOutDenom s = (s', Ok (top, rankedRoutes)) →
  (1 < length rankedRoutes)%nat →
  GetSplitQuote (initializeRouter cfg) rankedRoutes tokenIn = inr split →
  let best := if GetAmountOut top <? GetAmountOut split then split else top in
  GetRoute best ≠ [] →
  GetAmountOut best = Z.max (GetAmountOut top) (GetAmountOut split) ∧
  GetAmountOut top ≤ GetAmountOut best ∧
  GetOptimalQuote cfg ctx tokenIn tokenOutDenom s =
    (s', if GetAmountOut best =? 0 then Err ZeroOutput else Ok best).
Proof.
  intros Hranked Hlen Hsplit best Hroute.
  assert (GetAmountOut best = Z.max (GetAmountOut top) (GetAmountOut split)) as Hmax.
  { unfold best. destruct (Z.ltb_spec (GetAmountOut top) (GetAmountOut split)); lia. }
  split_and!; [done|lia|].
  rewrite GetOptimalQuote_phases, Hranked.
  apply selectQuote_split; [lia|done|done].
Qed.

(** C7. On a ranked-route cache miss, once the candidate routes are
    obtained and ranked and the overlap-filtered ranked routes are not
    empty, [GetOptimalQuote] leaves the ranked-route cache with one more
    write: under the key formatted from the token-in denom, the token-out
    denom and the order of magnitude of the amount in, it holds the
    filtered routes converted back to candidate routes, with a time to
    live of five minutes (300000000000 ns).  This holds whatever the
    selection does afterwards. *)
Theorem GetOptimalQuote_miss_writes_ranked_cache
    cfg ctx tokenIn tokenOutDenom s path s1 candidateRoutes top rankedRoutes :
  Cache_Get (rankedRouteCache s)
    (formatRankedRouteCacheKey (Denom tokenIn) tokenOutDenom
       (OrderOfMagnitude (Amount tokenIn))) = None →
  GetURLPathFromContext ctx = inr path →
  handleCandidateRoutes cfg ctx (initializeRouter cfg) (Denom tokenIn) tokenOutDenom
    (withCacheMiss (path, rankedRouteCacheLabel, Denom tokenIn, tokenOutDenom) s)
    = (s1, Ok candidateRoutes) →
  (rankRoutesByDirectQuote ctx (initializeRouter cfg) candidateRoutes tokenIn
     tokenOutDenom s1).2 = Ok (top, rankedRoutes) →
  filterDuplicatePoolIDRoutes rankedRoutes ≠ [] →
  let key := formatRankedRouteCacheKey (Denom tokenIn) tokenOutDenom
               (OrderOfMagnitude (Amount tokenIn)) in
  let written := CandidateRoutesValue
                   (convertRankedToCandidateRoutes
                      (filterDuplicatePoolIDRoutes rankedRoutes)) in
  let s' := (GetOptimalQuote cfg ctx tokenIn tokenOutDenom s).1 in
  rankedRouteCache s' = Cache_Set (rankedRouteCache s) key written (Minute * 5) ∧
  rankedRouteCache s' !! key = Some {| Value := written; Expiration := 300000000000 |} ∧
  Cache_Get (rankedRouteCache s') key = Some written.
Proof.
  intros Hmiss Hpath Hhandle Hrank Hne key written s'.
  assert (rankedRouteCache s' = Cache_Set (rankedRouteCache s) key written (Minute * 5))
    as Hs'.
  { unfold s'. rewrite GetOptimalQuote_state, rankedRoutesFor_spec, Hpath.
    unfold rankedRouteCacheKey. rewrite Hmiss, rankedRoutesOnMiss_spec, Hhandle, Hrank.
    rewrite decide_False by (by intros ->). simpl.
    pose proof (handleCandidateRoutes_rankedRouteCache cfg ctx (initializeRouter cfg)
                  (Denom tokenIn) tokenOutDenom
                  (withCacheMiss (path, rankedRouteCacheLabel, Denom tokenIn, tokenOutDenom) s))
      as Hc.
    rewrite Hhandle in Hc. simpl in Hc. by rewrite Hc. }
  split_and!; [done| |].
  - rewrite Hs'. unfold Cache_Set. by rewrite lookup_insert_eq.
  - rewrite Hs'. unfold Cache_Get, Cache_Set. by rewrite lookup_insert_eq.
Qed.

(** C10. Whatever [GetOptimalQuote] writes into the ranked-route cache is
    the conversion of overlap-filtered routes, so its routes are pairwise
    pool-disjoint: the call either leaves the cache as it was or adds one
    such value, found afterwards under the key of the request.  Hence a
    cache whose candidate-routes values are all pairwise pool-disjoint
    stays so, and on a hit in such a cache the routes handed to the
    evaluator are the cached ones, pairwise pool-disjoint. *)
Theorem GetOptimalQuote_caches_disjoint_routes cfg ctx tokenIn tokenOutDenom s :
  let s' := (GetOptimalQuote cfg ctx tokenIn tokenOutDenom s).1 in
  let key := rankedRouteCacheKey tokenIn tokenOutDenom in
  (rankedRouteCache s' = rankedRouteCache s ∨
   ∃ rankedRoutes,
     let written := convertRankedToCandidateRoutes
                      (filterDuplicatePoolIDRoutes rankedRoutes) in
     rankedRouteCache s' =
       Cache_Set (rankedRouteCache s) key (CandidateRoutesValue written) (Minute * 5) ∧
     Cache_Get (rankedRouteCache s') key = Some (CandidateRoutesValue written) ∧
     CandidatesPoolDisjoint (Routes written)) ∧
  (RankedCacheDisjoint (rankedRouteCache s) → RankedCacheDisjoint (rankedRouteCache s')) ∧
  (∀ cached path,
     RankedCacheDisjoint (rankedRouteCache s) →
     Cache_Get (rankedRouteCache s) key = Some (CandidateRoutesValue cached) →
     GetURLPathFromContext ctx = inr path →
     CandidatesPoolDisjoint (Routes cached) ∧
     rankedRoutesFor cfg ctx tokenIn tokenOutDenom s =
       rankRoutesByDirectQuote ctx (initializeRouter cfg) cached tokenIn tokenOutDenom
         (withCacheHit (path, rankedRouteCacheLabel, Denom tokenIn, tokenOutDenom) s)).
Proof.
  intros s' key.
  assert (rankedRouteCache s' = rankedRouteCache s ∨
          ∃ rankedRoutes,
            rankedRouteCache s' =
              Cache_Set (rankedRouteCache s) key
                (CandidateRoutesValue
                   (convertRankedToCandidateRoutes
                      (filterDuplicatePoolIDRoutes rankedRoutes)))
                (Minute * 5) ∧
            CandidatesPoolDisjoint
              (Routes (convertRankedToCandidateRoutes
                         (filterDuplicatePoolIDRoutes rankedRoutes)))) as Hshape.
  { unfold s'. rewrite GetOptimalQuote_state.
    destruct (rankedRoutesFor_rankedRouteCache cfg ctx tokenIn tokenOutDenom s)
      as [Hsame|(_ & rankedRoutes & _ & Hset)]; [by left|].
    right. exists rankedRoutes. split; [done|].
    apply CandidatesPoolDisjoint_convert, filterDuplicatePoolIDRoutes_disjoint. }
  split_and!.
  - destruct Hshape as [Hsame|(rankedRoutes & Hset & Hdisj)]; [by left|].
    right. exists rankedRoutes. cbv zeta. split_and!; [done| |done].
    rewrite Hset. unfold Cache_Get, Cache_Set. by rewrite lookup_insert_eq.
  - intros Hinv. destruct Hshape as [->|(rankedRoutes & -> & Hdisj)]; [done|].
    intros k cached. unfold Cache_Get, Cache_Set.
    destruct (decide (k = key)) as [->|Hk].
    + rewrite lookup_insert_eq. simpl. by intros [= <-].
    + rewrite lookup_insert_ne by done. apply Hinv.
  - intros cached path Hinv Hhit Hpath. split; [by eapply Hinv|].
    rewrite rankedRoutesFor_spec, Hpath.
    fold key. rewrite Hhit. unfold rankedRoutesOnHit. by unfold_M.
Qed.

(** C2, as the code has it. With [RouteCacheEnabled = false],
    [handleCandidateRoutes] leaves the candidate-route repository and the
    ranked-route cache as they were, and [GetOptimalQuote] leaves the
    repository as it was.  The ranked-route cache is not governed by that
    flag: [GetOptimalQuote] leaves it as it was, or, on a miss with
    non-empty filtered ranked routes, writes the entry of the request's
    key. *)
Theorem cache_disabled_frame cfg ctx router tokenIn tokenInDenom tokenOutDenom s :
  RouteCacheEnabled cfg = false →
  (let s' := (handleCandidateRoutes cfg ctx router tokenInDenom tokenOutDenom s).1 in
   routerRepository s' = routerRepository s ∧
   rankedRouteCache s' = rankedRouteCache s) ∧
  (let s' := (GetOptimalQuote cfg ctx tokenIn tokenOutDenom s).1 in
   routerRepository s' = routerRepository s ∧
   (rankedRouteCache s' = rankedRouteCache s ∨
    (Cache_Get (rankedRouteCache s) (rankedRouteCacheKey tokenIn tokenOutDenom) = None ∧
     ∃ rankedRoutes,
       filterDuplicatePoolIDRoutes rankedRoutes ≠ [] ∧
       rankedRouteCache s' =
         Cache_Set (rankedRouteCache s) (rankedRouteCacheKey tokenIn tokenOutDenom)
           (CandidateRoutesValue
              (convertRankedToCandidateRoutes (filterDuplicatePoolIDRoutes rankedRoutes)))
           (Minute * 5)))).
Proof.
  intros Hoff. cbv zeta. split_and!.
  - by apply handleCandidateRoutes_repository_disabled.
  - apply handleCandidateRoutes_rankedRouteCache.
  - rewrite GetOptimalQuote_state. by apply rankedRoutesFor_repository_disabled.
  - rewrite GetOptimalQuote_state. apply rankedRoutesFor_rankedRouteCache.
Qed.

(** C4, as the code has it. With [RouteCacheEnabled = false],
    [GetCachedCandidateRoutes] returns the empty [CandidateRoutes] together
    with the error "route cache is disabled"; it reads nothing, computes
    nothing and leaves the state, the repository included, as it was. *)
Theorem GetCachedCandidateRoutes_disabled cfg ctx tokenInDenom tokenOutDenom s :
  RouteCacheEnabled cfg = false →
  GetCachedCandidateRoutes cfg ctx tokenInDenom tokenOutDenom s
    = (s, (route.empty, Some RouteCacheDisabled)).
Proof. intros Hoff. unfold GetCachedCandidateRoutes. by rewrite Hoff. Qed.

(** *** The custom quote *)

(** The inner loop sets [routeIndex] exactly when the route has a pool and
    its pool ids from position [i] on are the requested ones; the index
    into [poolIDs] stays in range. *)
Lemma matchRoutePools_spec (pools : list RoutablePool) (i len : nat) (poolIDs : list N)
    (curRouteIndex routeIndex : Z) :
  (i + length pools = len)%nat → length poolIDs = len →
  matchRoutePools pools i len poolIDs curRouteIndex routeIndex =
    Ok (if decide (pools ≠ [] ∧ GetId <$> pools = drop i poolIDs)
        then curRouteIndex else routeIndex).
Proof.
  revert i routeIndex. induction pools as [|p rest IH]; intros i routeIndex Hi Hlen.
  - cbn [matchRoutePools]. case_decide as Hm; [by destruct Hm|done].
  - cbn [length] in Hi. cbn [matchRoutePools].
    destruct (lookup_lt_is_Some_2 poolIDs i) as [d Hd]; [lia|].
    rewrite Hd, (drop_S _ _ _ Hd), fmap_cons.
    destruct (decide (GetId p ≠ d)) as [Hne|Heq].
    + case_decide as Hm; [|done]. destruct Hm as [_ Hm]. by simplify_eq.
    + apply dec_stable in Heq. rewrite IH by lia.
      destruct rest as [|q rest'].
      * cbn [length] in Hi.
        destruct (decide (Z.of_nat i = Z.of_nat len - 1)) as [Hz|Hz]; [|lia].
        rewrite drop_ge by lia. rewrite Heq.
        repeat case_decide; naive_solver.
      * cbn [length] in Hi.
        destruct (decide (Z.of_nat i = Z.of_nat len - 1)) as [Hz|Hz]; [lia|].
        rewrite Heq.
        destruct (decide (q :: rest' ≠ [] ∧ GetId <$> q :: rest' = drop (S i) poolIDs))
          as [[_ Hm]|Hm].
        -- rewrite decide_True; [done|]. split; [done|]. by rewrite <- Hm.
        -- rewrite decide_False; [done|]. intros [_ Hm']. apply Hm. split; [done|].
           by simplify_eq.
Qed.

(** The outer loop stops at the first route that has a pool and whose
    ordered pool ids are the requested ones, and never panics. *)
Lemma findRouteIndex_spec (routes : list RouteImpl) (curRouteIndex : Z) (poolIDs : list N) :
  0 ≤ curRouteIndex →
  findRouteIndex routes curRouteIndex poolIDs (-1) =
    Ok (match list_find (λ r, GetPools r ≠ [] ∧ GetId <$> GetPools r = poolIDs) routes with
        | Some (i, _) => curRouteIndex + Z.of_nat i
        | None => -1
        end).
Proof.
  revert curRouteIndex. induction routes as [|r rest IH]; intros cur Hcur; [done|].
  simpl. destruct (decide (length (GetPools r) ≠ length poolIDs)) as [Hlen|Hlen].
  - rewrite decide_False.
    2:{ intros [_ Hm]. apply Hlen. by rewrite <- Hm, length_fmap. }
    rewrite IH by lia. destruct (list_find _ rest) as [[i r']|]; simpl; [|done].
    f_equal. lia.
  - apply dec_stable in Hlen.
    rewrite (matchRoutePools_spec _ 0 (length (GetPools r))) by done.
    rewrite drop_0. simpl.
    destruct (decide (GetPools r ≠ [] ∧ GetId <$> GetPools r = poolIDs)) as [Hm|Hm].
    + rewrite decide_True by lia. f_equal. lia.
    + rewrite decide_False by lia. rewrite IH by lia.
      destruct (list_find _ rest) as [[i r']|]; simpl; [|done].
      f_equal. lia.
Qed.

Lemma list_find_agree {A} (P Q : A → Prop) `{!∀ x, Decision (P x)} `{!∀ x, Decision (Q x)}
    (l : list A) :
  Forall (λ x, P x ↔ Q x) l → list_find P l = list_find Q l.
Proof.
  induction 1 as [|x l Hx _ IH]; [done|]. simpl.
  destruct (decide (P x)), (decide (Q x)); try tauto. by rewrite IH.
Qed.

(** [GetCustomQuote] once the candidate routes are bound to [routes]. *)
Lemma GetCustomQuote_spec cfg ctx tokenIn tokenOutDenom poolIDs s s1 candidateRoutes
    takerFees routes :
  handleCandidateRoutes cfg ctx (initializeRouter cfg) (Denom tokenIn) tokenOutDenom s
    = (s1, Ok candidateRoutes) →
  GetAllTakerFees (routerRepository s1) ctx = inr takerFees →
  GetRoutesFromCandidates ctx candidateRoutes takerFees (Denom tokenIn) tokenOutDenom
    = inr routes →
  GetCustomQuote cfg ctx tokenIn tokenOutDenom poolIDs s =
    (s1,
     match list_find (λ r, GetPools r ≠ [] ∧ GetId <$> GetPools r = poolIDs) routes with
     | None => Err (NoMatchingRoute poolIDs)
     | Some (_, foundRoute) =>
         match estimateAndRankSingleRouteQuote (initializeRouter cfg) [foundRoute] tokenIn with
         | inl msg => Err (CollaboratorError msg)
         | inr (quote, _) => Ok quote
         end
     end).
Proof.
  intros Hhandle Hfees Hroutes. unfold GetCustomQuote.
  unfold mbind at 1. unfold M_bind at 1. rewrite Hhandle.
  unfold_M. rewrite Hfees. simpl. rewrite Hroutes. simpl.
  rewrite findRouteIndex_spec by done.
  destruct (list_find _ routes) as [[i r]|] eqn:Hfind; [|done].
  apply list_find_Some in Hfind as (Hi & _ & _).
  pose proof (lookup_lt_Some _ _ _ Hi) as Hlt.
  rewrite decide_False by lia. rewrite decide_False by lia.
  unfold index. rewrite decide_True by lia.
  replace (Z.to_nat (0 + Z.of_nat i)) with i by lia. rewrite Hi.
  by destruct (estimateAndRankSingleRouteQuote _ _ _) as [msg|[quote sorted]].
Qed.

(** C8. Once the candidate routes are bound to [routes], [GetCustomQuote]
    fails with [NoMatchingRoute] if and only if no route has [poolIDs] as
    its ordered pool-id sequence; and when some route does, the answer is
    the evaluation of the first such route alone: its quote, or the
    evaluator's error.  Routes are taken to have at least one pool, as the
    data model has them; this is only needed for an empty [poolIDs]. *)
Theorem GetCustomQuote_matching_route cfg ctx tokenIn tokenOutDenom poolIDs s s1
    candidateRoutes takerFees routes :
  handleCandidateRoutes cfg ctx (initializeRouter cfg) (Denom tokenIn) tokenOutDenom s
    = (s1, Ok candidateRoutes) →
  GetAllTakerFees (routerRepository s1) ctx = inr takerFees →
  GetRoutesFromCandidates ctx candidateRoutes takerFees (Denom tokenIn) tokenOutDenom
    = inr routes →
  (poolIDs = [] → Forall (λ r, GetPools r ≠ []) routes) →
  ((GetCustomQuote cfg ctx tokenIn tokenOutDenom poolIDs s).2 = Err (NoMatchingRoute poolIDs)
     ↔ ¬ ∃ r, r ∈ routes ∧ GetId <$> GetPools r = poolIDs) ∧
  (∀ i foundRoute,
     list_find (λ r, GetId <$> GetPools r = poolIDs) routes = Some (i, foundRoute) →
     GetCustomQuote cfg ctx tokenIn tokenOutDenom poolIDs s =
       (s1,
        match estimateAndRankSingleRouteQuote (initializeRouter cfg) [foundRoute] tokenIn with
        | inl msg => Err (CollaboratorError msg)
        | inr (quote, _) => Ok quote
        end)).
Proof.
  intros Hhandle Hfees Hroutes Hpools.
  rewrite (GetCustomQuote_spec _ _ _ _ _ _ _ _ _ _ Hhandle Hfees Hroutes).
  rewrite (list_find_agree _ (λ r, GetId <$> GetPools r = poolIDs)).
  2:{ destruct poolIDs as [|id ids].
      - eapply Forall_impl; [by apply Hpools|]. simpl. tauto.
      - apply Forall_forall. intros r _. split; [tauto|]. intros Hm.
        split; [|done]. intros Hnil. by rewrite Hnil in Hm. }
  split.
  - simpl. destruct (list_find _ routes) as [[i r]|] eqn:Hfind.
    + apply list_find_Some in Hfind as (Hi & Hm & _). split.
      * by destruct (estimateAndRankSingleRouteQuote _ _ _) as [msg|[quote sorted]].
      * intros Hno. exfalso. apply Hno. exists r. split; [|done].
        by eapply list_elem_of_lookup_2.
    + split; [|done]. intros _ (r & Hr & Hm).
      apply list_find_None in Hfind. rewrite Forall_forall in Hfind. by apply (Hfind r).
  - intros i foundRoute Hfind. by rewrite Hfind.
Qed.

End UsecaseLemmas.

(** ** The scenarios, checked *)

Section Scenarios.

Import mocks scenarios.

(** Scenario 5 of the specification: of [[P1], [P1, P2], [P2]] the middle
    route is dropped and the last one kept. *)
Example filterDuplicatePoolIDRoutes_three_routes :
  let r1 := {| GetPools := [mkRoutablePool 1 uion 0 0] |} in
  let r12 := {| GetPools := [mkRoutablePool 1 uosmo 0 0; mkRoutablePool 2 uion 0 0] |} in
  let r2 := {| GetPools := [mkRoutablePool 2 uion 0 0] |} in
  filterDuplicatePoolIDRoutes [r1; r12; r2] = [r1; r2].
Proof. vm_compute. reflexivity. Qed.

(** Scenarios 1, 3 and 4 of the specification, on [GetCandidateRoutes]:
    routes in the repository are used as they are and nothing is written;
    with an empty repository the route through the one pool is found and
    stored; without pools nothing is found and nothing stored. *)
Example GetCandidateRoutes_cache_hit :
  let run := GetCandidateRoutes (PU := PoolsUsecaseMock []) (config true) ctx uosmo uion
               cachedState in
  run.2 = Ok singleDefaultRoutes ∧ routerRepository run.1 = routerRepository cachedState.
Proof. split; vm_compute; reflexivity. Qed.

Example GetCandidateRoutes_recompute_on_miss :
  let run := GetCandidateRoutes (PU := PoolsUsecaseMock [poolA]) (config true) ctx uosmo uion
               emptyState in
  run.2 = Ok singleDefaultRoutes ∧ routerRepository run.1 = routerRepository cachedState.
Proof. split; vm_compute; reflexivity. Qed.

Example GetCandidateRoutes_no_pools :
  let run := GetCandidateRoutes (PU := PoolsUsecaseMock []) (config true) ctx uosmo uion
               emptyState in
  run.2 = Ok route.empty ∧ routerRepository run.1 = routerRepository emptyState.
Proof. split; vm_compute; reflexivity. Qed.

(** From [TestFilterDuplicatePoolIDRoutes]: the same pool twice within
    one route has no effect on filtering. *)
Example filterDuplicatePoolIDRoutes_same_pool_twice :
  let r11 := {| GetPools := [mkRoutablePool 1 uion 0 0; mkRoutablePool 1 uosmo 0 0] |} in
  filterDuplicatePoolIDRoutes [r11] = [r11].
Proof. vm_compute. reflexivity. Qed.

Example formatRankedRouteCacheKey_example :
  formatRankedRouteCacheKey uosmo uion 6 = "uosmo/uion/6".
Proof. vm_compute. reflexivity. Qed.

(** C1. One uosmo through a single pool that keeps half of it: the
    candidate search finds one route, the evaluator ranks it with an amount
    out of zero, one ranked route is left, and [GetOptimalQuote] returns that
    quote without an error. *)
Theorem GetOptimalQuote_single_route_zero_output :
  (optimalQuote [halfFeePool] (config true) oneUnit emptyState).2 = Ok zeroQuote ∧
  GetAmountOut zeroQuote = 0.
Proof. split; vm_compute; reflexivity. Qed.

(** C2, as stated, fails: with the route cache disabled, a call of
    [GetOptimalQuote] on empty caches leaves an entry in the ranked-route
    cache. *)
Lemma cache_disabled_ranked_cache_written :
  RouteCacheEnabled (config false) = false ∧
  Cache_Get (rankedRouteCache emptyState) "uosmo/uion/3" = None ∧
  Cache_Get (rankedRouteCache (optimalQuote [poolA] (config false) thousand emptyState).1)
    "uosmo/uion/3" = Some (CandidateRoutesValue singleDefaultRoutes) ∧
  rankedRouteCache (optimalQuote [poolA] (config false) thousand emptyState).1
    ≠ rankedRouteCache emptyState.
Proof.
  split_and!; try (vm_compute; reflexivity).
  intros Heq. apply (f_equal (λ c, Cache_Get c "uosmo/uion/3")) in Heq.
  vm_compute in Heq. discriminate.
Qed.

(** C4, as stated, fails: with the route cache disabled and routes in
    the repository, [GetCachedCandidateRoutes] returns an error. *)
Lemma GetCachedCandidateRoutes_disabled_is_error :
  RouteCacheEnabled (config false) = false ∧
  (cachedCandidateRoutes (config false) cachedState).2
    = (route.empty, Some RouteCacheDisabled) ∧
  (cachedCandidateRoutes (config false) cachedState).2.2 ≠ None.
Proof. split_and!; [reflexivity|reflexivity|discriminate]. Qed.

(** The frame on concrete runs: route cache disabled, routes already in
    the repository, one pool. *)
Lemma cache_disabled_frame_witness :
  routerRepository (candidateRoutesOf [poolA] (config false) cachedState).1
    = routerRepository cachedState ∧
  rankedRouteCache (candidateRoutesOf [poolA] (config false) cachedState).1
    = rankedRouteCache cachedState ∧
  routerRepository (optimalQuote [poolA] (config false) thousand cachedState).1
    = routerRepository cachedState.
Proof.
  pose proof (cache_disabled_frame (PU := PoolsUsecaseMock [poolA]) (config false) ctx
                (initializeRouter (config false)) thousand uosmo uion cachedState eq_refl)
    as [[Hrepo Hcache] [Hrepo' _]].
  split_and!; [exact Hrepo|exact Hcache|exact Hrepo'].
Defined.

(** The disabled route cache on a repository that holds routes. *)
Lemma GetCachedCandidateRoutes_disabled_witness :
  cachedCandidateRoutes (config false) cachedState
    = (cachedState, (route.empty, Some RouteCacheDisabled)).
Proof.
  exact (GetCachedCandidateRoutes_disabled (config false) ctx uosmo uion cachedState eq_refl).
Defined.

(** 1000uosmo over pools A and B: two ranked routes, the split quote (950)
    does not beat the single quote (1000), which is returned. *)
Lemma GetOptimalQuote_better_of_single_and_split_witness :
  (optimalQuote [poolA; poolB] (config true) thousand emptyState).2 = Ok quoteA ∧
  GetAmountOut quoteA = Z.max (GetAmountOut quoteA) (GetAmountOut splitAB).
Proof.
  pose proof (GetOptimalQuote_better_of_single_and_split
                (PU := PoolsUsecaseMock [poolA; poolB]) (config true) ctx thousand uion
                emptyState
                (rankedRoutesFor (PU := PoolsUsecaseMock [poolA; poolB]) (config true) ctx
                   thousand uion emptyState).1
                quoteA [routeA; routeB] splitAB) as Hbest.
  destruct Hbest as (Hmax & _ & Hrun).
  - vm_compute. reflexivity.
  - simpl. lia.
  - vm_compute. reflexivity.
  - vm_compute. discriminate.
  - split; [|exact Hmax]. unfold optimalQuote. rewrite Hrun. reflexivity.
Defined.

(** The same run leaves both routes in the ranked-route cache, for five
    minutes, under the key of the request. *)
Lemma GetOptimalQuote_miss_writes_ranked_cache_witness :
  rankedRouteCache (optimalQuote [poolA; poolB] (config true) thousand emptyState).1
    !! "uosmo/uion/3"
    = Some {| Value := CandidateRoutesValue twoRoutes; Expiration := 300000000000 |}.
Proof.
  pose proof (GetOptimalQuote_miss_writes_ranked_cache
                (PU := PoolsUsecaseMock [poolA; poolB]) (config true) ctx thousand uion
                emptyState "/router/quote"
                (candidateRoutesOf [poolA; poolB] (config true)
                   (withCacheMiss ("/router/quote", rankedRouteCacheLabel, uosmo, uion)
                      emptyState)).1
                twoRoutes quoteA [routeA; routeB]) as Hwrite.
  destruct Hwrite as (_ & Hitem & _).
  - vm_compute. reflexivity.
  - reflexivity.
  - vm_compute. reflexivity.
  - vm_compute. reflexivity.
  - vm_compute. discriminate.
  - exact Hitem.
Defined.

(** The three cases of [TestHandleRoutes] with a non-empty answer: routes
    in the repository are used; an empty repository is filled with the
    computed route; with the route cache disabled the route is computed and
    the repository left alone. *)
Lemma handleCandidateRoutes_cache_policy_witness :
  candidateRoutesOf [] (config true) cachedState
    = (withCacheHit ("/router/quote", candidateRouteCacheLabel, uosmo, uion) cachedState,
       Ok singleDefaultRoutes) ∧
  candidateRoutesOf [poolA] (config true) emptyState
    = (withRepository (routerRepository cachedState)
         (withCacheMiss ("/router/quote", candidateRouteCacheLabel, uosmo, uion) emptyState),
       Ok singleDefaultRoutes) ∧
  candidateRoutesOf [poolA] (config false) cachedState
    = (withCacheMiss ("/router/quote", candidateRouteCacheLabel, uosmo, uion) cachedState,
       Ok singleDefaultRoutes).
Proof.
  assert (Hpath : @GetURLPathFromContext domain RouterAPIMock ctx = inr "/router/quote")
    by reflexivity.
  split_and!.
  - apply (handleCandidateRoutes_cache_policy (PU := PoolsUsecaseMock []) (config true) ctx
             (initializeRouter (config true)) uosmo uion cachedState "/router/quote" Hpath).
    + reflexivity.
    + vm_compute. reflexivity.
    + vm_compute. discriminate.
  - unfold candidateRoutesOf.
    rewrite (proj2 (handleCandidateRoutes_cache_policy (PU := PoolsUsecaseMock [poolA])
                      (config true) ctx (initializeRouter (config true)) uosmo uion
                      emptyState "/router/quote" Hpath) [poolA] singleDefaultRoutes).
    + vm_compute. reflexivity.
    + right. exists route.empty. split; vm_compute; reflexivity.
    + reflexivity.
    + vm_compute. reflexivity.
  - unfold candidateRoutesOf.
    rewrite (proj2 (handleCandidateRoutes_cache_policy (PU := PoolsUsecaseMock [poolA])
                      (config false) ctx (initializeRouter (config false)) uosmo uion
                      cachedState "/router/quote" Hpath) [poolA] singleDefaultRoutes).
    + vm_compute. reflexivity.
    + left. reflexivity.
    + reflexivity.
    + vm_compute. reflexivity.
Defined.

(** Over pools A and B the pool-id list [2] selects route B, and the
    empty list selects nothing. *)
Lemma GetCustomQuote_matching_route_witness :
  (customQuote [poolA; poolB] (config true) thousand [2%N] emptyState).2 = Ok quoteB ∧
  (customQuote [poolA; poolB] (config true) thousand [] emptyState).2
    = Err (NoMatchingRoute []).
Proof.
  split.
  - destruct (GetCustomQuote_matching_route (PU := PoolsUsecaseMock [poolA; poolB])
                (config true) ctx thousand uion [2%N] emptyState
                (candidateRoutesOf [poolA; poolB] (config true) emptyState).1
                twoRoutes tt [routeA; routeB]) as [_ Hfound].
    + vm_compute. reflexivity.
    + reflexivity.
    + vm_compute. reflexivity.
    + discriminate.
    + unfold customQuote. rewrite (Hfound 1%nat routeB); [|vm_compute; reflexivity].
      vm_compute. reflexivity.
  - destruct (GetCustomQuote_matching_route (PU := PoolsUsecaseMock [poolA; poolB])
                (config true) ctx thousand uion [] emptyState
                (candidateRoutesOf [poolA; poolB] (config true) emptyState).1
                twoRoutes tt [routeA; routeB]) as [Hnone _].
    + vm_compute. reflexivity.
    + reflexivity.
    + vm_compute. reflexivity.
    + intros _. repeat constructor; discriminate.
    + apply Hnone. intros (r & Hr & Hm).
      apply elem_of_cons in Hr as [->|Hr]; [discriminate|].
      apply elem_of_cons in Hr as [->|Hr]; [discriminate|].
      by apply elem_of_nil in Hr.
Defined.

End Scenarios.

(** ** Further results on the overlap filter, the conversion and the key *)

Section FilterMore.

Implicit Types (r : RouteImpl) (rs : list RouteImpl).

Lemma PairwisePoolDisjoint_snoc_inv rs r :
  PairwisePoolDisjoint (rs ++ [r]) →
  PairwisePoolDisjoint rs ∧ routePoolIDs r ## acceptedPoolIDs rs.
Proof.
  intros Hall. split.
  - intros i j ri rj Hij Hi Hj. apply (Hall i j); [done| |].
    + by apply lookup_app_l_Some.
    + by apply lookup_app_l_Some.
  - intros x Hx Hacc. apply elem_of_acceptedPoolIDs in Hacc as (s & Hs & Hxs).
    apply list_elem_of_lookup in Hs as [i Hi].
    pose proof (lookup_lt_Some _ _ _ Hi) as Hlt.
    assert (routePoolIDs s ## routePoolIDs r) as Hd.
    { apply (Hall i (length rs)); [done| |by apply list_lookup_middle].
      by apply lookup_app_l_Some. }
    by apply (Hd x).
Qed.

(** The filter leaves a pairwise pool-disjoint list as it is. *)
Lemma filterDuplicatePoolIDRoutes_fixed rs :
  PairwisePoolDisjoint rs → filterDuplicatePoolIDRoutes rs = rs.
Proof.
  induction rs as [|r rs IH] using rev_ind; [done|].
  intros [Hrs Hr]%PairwisePoolDisjoint_snoc_inv.
  rewrite filterDuplicatePoolIDRoutes_snoc, IH by done. by rewrite decide_True.
Qed.

Lemma acceptedPoolIDs_sublist rs1 rs2 :
  sublist rs1 rs2 → acceptedPoolIDs rs1 ⊆ acceptedPoolIDs rs2.
Proof.
  intros Hsub x. rewrite !elem_of_acceptedPoolIDs. intros (r & Hr & Hx).
  exists r. split; [|done]. by eapply elem_of_sublist.
Qed.

(** X1. The overlap filter is idempotent, and its fixed points are exactly
    the lists whose routes are pairwise pool-disjoint; it never lengthens
    the list and never brings in a pool id that was not in the input. *)
Theorem filterDuplicatePoolIDRoutes_idempotent (rankedRoutes : list RouteImpl) :
  (filterDuplicatePoolIDRoutes rankedRoutes = rankedRoutes
     ↔ PairwisePoolDisjoint rankedRoutes) ∧
  filterDuplicatePoolIDRoutes (filterDuplicatePoolIDRoutes rankedRoutes)
    = filterDuplicatePoolIDRoutes rankedRoutes ∧
  (length (filterDuplicatePoolIDRoutes rankedRoutes) ≤ length rankedRoutes)%nat ∧
  acceptedPoolIDs (filterDuplicatePoolIDRoutes rankedRoutes) ⊆ acceptedPoolIDs rankedRoutes.
Proof.
  split_and!.
  - split.
    + intros <-. apply filterDuplicatePoolIDRoutes_disjoint.
    + apply filterDuplicatePoolIDRoutes_fixed.
  - apply filterDuplicatePoolIDRoutes_fixed, filterDuplicatePoolIDRoutes_disjoint.
  - apply sublist_length, filterDuplicatePoolIDRoutes_sublist.
  - apply acceptedPoolIDs_sublist, filterDuplicatePoolIDRoutes_sublist.
Qed.

Lemma toCandidateRoute_steps r :
  toCandidateRoute r = {| Pools := (λ st, {| ID := st.1; TokenOutDenom := st.2 |})
                                     <$> routeSteps r |}.
Proof.
  unfold toCandidateRoute, routeSteps. f_equal. by rewrite <- list_fmap_compose.
Qed.

Lemma routePoolIDs_steps r : routePoolIDs r = list_to_set ((routeSteps r).*1).
Proof. unfold routePoolIDs, routeSteps. by rewrite <- list_fmap_compose. Qed.

Lemma acceptedPoolIDs_app rs1 rs2 :
  acceptedPoolIDs (rs1 ++ rs2) = acceptedPoolIDs rs1 ∪ acceptedPoolIDs rs2.
Proof. unfold acceptedPoolIDs. by rewrite fmap_app, union_list_app_L. Qed.

(** X2. What [convertRankedToCandidateRoutes] returns depends on the
    ordered [(pool id, token out denom)] steps of the routes and on nothing
    else bound to their pools: two lists of ranked routes convert to the
    same value exactly when they have the same steps.  The conversion of a
    concatenation is the concatenation of the routes with the union of the
    pool ids, and the pool ids of the value are those of its own routes. *)
Theorem convertRankedToCandidateRoutes_steps_only (rs1 rs2 : list RouteImpl) :
  (convertRankedToCandidateRoutes rs1 = convertRankedToCandidateRoutes rs2
     ↔ routeSteps <$> rs1 = routeSteps <$> rs2) ∧
  Routes (convertRankedToCandidateRoutes (rs1 ++ rs2))
    = Routes (convertRankedToCandidateRoutes rs1)
        ++ Routes (convertRankedToCandidateRoutes rs2) ∧
  UniquePoolIDs (convertRankedToCandidateRoutes (rs1 ++ rs2))
    = UniquePoolIDs (convertRankedToCandidateRoutes rs1)
        ∪ UniquePoolIDs (convertRankedToCandidateRoutes rs2) ∧
  UniquePoolIDs (convertRankedToCandidateRoutes rs1)
    = ⋃ (candidatePoolIDs <$> Routes (convertRankedToCandidateRoutes rs1)).
Proof.
  rewrite !convertRankedToCandidateRoutes_spec. simpl. split_and!.
  - split.
    + intros [= Hroutes _].
      apply (f_equal (fmap candidateSteps)) in Hroutes.
      rewrite <- !list_fmap_compose in Hroutes.
      rewrite (list_fmap_ext (candidateSteps ∘ toCandidateRoute) routeSteps rs1),
        (list_fmap_ext (candidateSteps ∘ toCandidateRoute) routeSteps rs2) in Hroutes;
        [done| |]; intros ? r _; apply candidateSteps_toCandidateRoute.
    + intros Hsteps.
      assert (toCandidateRoute <$> rs1 = toCandidateRoute <$> rs2) as ->.
      { rewrite (list_fmap_ext toCandidateRoute
                   ((λ st, {| Pools := (λ st, {| ID := st.1; TokenOutDenom := st.2 |}) <$> st |})
                      ∘ routeSteps) rs1),
          (list_fmap_ext toCandidateRoute
                   ((λ st, {| Pools := (λ st, {| ID := st.1; TokenOutDenom := st.2 |}) <$> st |})
                      ∘ routeSteps) rs2);
          try (intros ? r _; apply toCandidateRoute_steps).
        by rewrite !list_fmap_compose, Hsteps. }
      f_equal. unfold acceptedPoolIDs.
      rewrite (list_fmap_ext routePoolIDs ((λ st, list_to_set st.*1) ∘ routeSteps) rs1),
        (list_fmap_ext routePoolIDs ((λ st, list_to_set st.*1) ∘ routeSteps) rs2);
        try (intros ? r _; apply routePoolIDs_steps).
      by rewrite !list_fmap_compose, Hsteps.
  - apply fmap_app.
  - apply acceptedPoolIDs_app.
  - unfold acceptedPoolIDs. rewrite <- list_fmap_compose. f_equal.
    apply list_fmap_ext. intros ? r _. simpl.
    by rewrite candidatePoolIDs_toCandidateRoute.
Qed.

End FilterMore.

Section KeyMore.

Lemma append_slash_inj (a b x y : string) :
  hasSlash a = false → hasSlash b = false →
  a +:+ "/" +:+ x = b +:+ "/" +:+ y → a = b ∧ x = y.
Proof.
  revert b.
  induction a as [|c a IH]; intros [|d b] Ha Hb Heq; simpl in *; simplify_eq; [done|].
  case_decide; [done|]. by destruct (IH b Ha Hb) as [-> ->].
Qed.

(** The separator is what keeps keys apart: a denom that contains it can
    give two different requests one key. *)
Example formatRankedRouteCacheKey_collision :
  formatRankedRouteCacheKey "a/b" "c" 1 = formatRankedRouteCacheKey "a" "b/c" 1.
Proof. reflexivity. Qed.

(** X3. For denoms without a slash the ranked-route cache key determines
    the request: two keys are equal only for the same token-in denom, the
    same token-out denom and the same order of magnitude. *)
Theorem formatRankedRouteCacheKey_inj (tokenInDenom1 tokenOutDenom1 tokenInDenom2
    tokenOutDenom2 : string) (magnitude1 magnitude2 : Z) :
  hasSlash tokenInDenom1 = false → hasSlash tokenOutDenom1 = false →
  hasSlash tokenInDenom2 = false → hasSlash tokenOutDenom2 = false →
  formatRankedRouteCacheKey tokenInDenom1 tokenOutDenom1 magnitude1
    = formatRankedRouteCacheKey tokenInDenom2 tokenOutDenom2 magnitude2 →
  tokenInDenom1 = tokenInDenom2 ∧ tokenOutDenom1 = tokenOutDenom2 ∧
  magnitude1 = magnitude2.
Proof.
  unfold formatRankedRouteCacheKey. intros Hi1 Ho1 Hi2 Ho2 Hkey.
  apply append_slash_inj in Hkey as [-> Hkey]; [|done..].
  apply append_slash_inj in Hkey as [-> Hkey]; [|done..].
  split_and!; [done..|]. by apply (inj pretty).
Qed.

End KeyMore.

(** ** Further results on the ranking *)

Section RankingMore.

Context {D : Domain} {RR : RouterRepository} {PU : PoolsUsecase} {RA : RouterAPI}.

(** The overwriting loop within bounds: positions [i .. i+n-1] take the
    ranked routes of the same positions, the rest stays. *)
Lemma overwriteTopRoutes_ok (n i : nat) (routes : list RouteImpl)
    (sorted : list RouteWithOutAmount) :
  (i + n ≤ length routes)%nat → (i + n ≤ length sorted)%nat →
  overwriteTopRoutes n i routes sorted =
    Ok (take i routes ++ take n (drop i (RouteImpl_ <$> sorted)) ++ drop (i + n) routes).
Proof.
  revert i routes. induction n as [|n IH]; intros i routes Hr Hs.
  - simpl. by rewrite Nat.add_0_r, take_drop.
  - simpl. destruct (lookup_lt_is_Some_2 sorted i) as [s Hsi]; [lia|].
    rewrite Hsi. rewrite decide_True by lia.
    rewrite IH by (rewrite ?length_insert; lia). f_equal.
    assert ((RouteImpl_ <$> sorted) !! i = Some (RouteImpl_ s)) as Hfi
      by (by rewrite list_lookup_fmap, Hsi).
    rewrite (drop_S _ _ _ Hfi). simpl.
    rewrite (take_S_r (<[i:=RouteImpl_ s]> routes) i (RouteImpl_ s))
      by (by apply list_lookup_insert_eq; lia).
    rewrite take_insert_ge by lia. rewrite drop_insert_lt by lia.
    rewrite <- app_assoc. simpl.
    by replace (i + S n)%nat with (S (i + n)) by lia.
Qed.

(** The loop panics as soon as an index leaves either list. *)
Lemma overwriteTopRoutes_panic (n i : nat) (routes : list RouteImpl)
    (sorted : list RouteWithOutAmount) :
  (length routes < i + n ∨ length sorted < i + n)%nat →
  (i ≤ length routes)%nat → (i ≤ length sorted)%nat →
  overwriteTopRoutes n i routes sorted = Err Panic.
Proof.
  revert i routes. induction n as [|n IH]; intros i routes Hout Hi Hi'; [lia|].
  simpl. destruct (sorted !! i) as [s|] eqn:Hsi; [|done].
  pose proof (lookup_lt_Some _ _ _ Hsi). case_decide; [|done].
  apply IH; rewrite ?length_insert; lia.
Qed.

(** X4. [estimateDirectQuote] with a positive [maxSplitRoutes], when the
    evaluator ranks no more routes than it was given: the top quote comes
    with the ranked routes in rank order, cut to the first
    [maxSplitRoutes] if there are more; if there are not, the list keeps
    the length of the input, and behind the ranked routes stand the input
    routes of the remaining positions. *)
Theorem estimateDirectQuote_top_routes router routes tokenIn top sorted :
  estimateAndRankSingleRouteQuote router routes tokenIn = inr (top, sorted) →
  (length sorted ≤ length routes)%nat →
  0 < maxSplitRoutes router →
  estimateDirectQuote router routes tokenIn =
    Ok (top,
        if maxSplitRoutes router <? Z.of_nat (length sorted)
        then take (Z.to_nat (maxSplitRoutes router)) (RouteImpl_ <$> sorted)
        else (RouteImpl_ <$> sorted) ++ drop (length sorted) routes).
Proof.
  intros Heval Hlen Hmax. unfold estimateDirectQuote. rewrite Heval. simpl.
  rewrite (proj2 (Z.eqb_neq _ 0)) by lia. simpl.
  destruct (Z.ltb_spec (maxSplitRoutes router) (Z.of_nat (length sorted))) as [Hlt|Hge].
  - unfold sliceTo. rewrite decide_True by lia. simpl.
    rewrite overwriteTopRoutes_ok by (rewrite ?length_take; lia). simpl.
    rewrite drop_0, drop_ge by (rewrite length_take; lia). by rewrite app_nil_r.
  - simpl. rewrite overwriteTopRoutes_ok by lia. simpl.
    rewrite drop_0, Nat2Z.id. by rewrite take_ge by (rewrite length_fmap; lia).
Qed.

(** X5. With [maxSplitRoutes = 0] (splits disabled) and a non-empty
    ranking, [estimateDirectQuote] puts the top ranked route first and
    returns every other input route behind it, in its place: the list is as
    long as the input, not a single route.  Without input routes the
    write to [routes[0]] panics. *)
Theorem estimateDirectQuote_split_disabled router routes tokenIn top best sorted :
  estimateAndRankSingleRouteQuote router routes tokenIn = inr (top, best :: sorted) →
  maxSplitRoutes router = 0 →
  estimateDirectQuote router routes tokenIn =
    match routes with
    | [] => Err Panic
    | _ :: rest => Ok (top, RouteImpl_ best :: rest)
    end.
Proof.
  intros Heval Hmax. unfold estimateDirectQuote. rewrite Heval, Hmax. simpl.
  by destruct routes.
Qed.

(** X6. The edges of [estimateDirectQuote] once the evaluator has
    answered: a negative [maxSplitRoutes] panics on the slice bound; an
    empty ranking hands the input routes back as they came; and, when no
    cut applies, a ranking longer than the input panics on the index. *)
Theorem estimateDirectQuote_edges router routes tokenIn top sorted :
  estimateAndRankSingleRouteQuote router routes tokenIn = inr (top, sorted) →
  (maxSplitRoutes router < 0 → estimateDirectQuote router routes tokenIn = Err Panic) ∧
  (sorted = [] → 0 ≤ maxSplitRoutes router →
     estimateDirectQuote router routes tokenIn = Ok (top, routes)) ∧
  ((length routes < length sorted)%nat →
   Z.of_nat (length sorted) ≤ maxSplitRoutes router →
     estimateDirectQuote router routes tokenIn = Err Panic).
Proof.
  intros Heval. unfold estimateDirectQuote. rewrite Heval. simpl. split_and!.
  - intros Hneg. rewrite (proj2 (Z.eqb_neq _ 0)) by lia. simpl.
    rewrite (proj2 (Z.ltb_lt _ _)) by lia. unfold sliceTo.
    by rewrite decide_False by lia.
  - intros -> Hmax. simpl. rewrite andb_false_r.
    by rewrite (proj2 (Z.ltb_ge _ _)) by lia.
  - intros Hlong Hmax.
    rewrite (proj2 (Z.eqb_neq _ 0)) by lia. simpl.
    rewrite (proj2 (Z.ltb_ge _ _)) by lia. simpl.
    rewrite overwriteTopRoutes_panic; [done|lia|lia|lia].
Qed.

End RankingMore.

(** ** Further results on the candidate routes *)

Section CandidateRoutesMore.

Context {D : Domain} {RR : RouterRepository} {PU : PoolsUsecase} {RA : RouterAPI}.

Implicit Types (s : State) (cfg : RouterConfig) (ctx : Context) (router : Router).

(** [handleCandidateRoutes] as a case analysis on what its collaborators
    answer, in the order in which it asks them. *)
Lemma handleCandidateRoutes_unfold cfg ctx router tokenInDenom tokenOutDenom s :
  handleCandidateRoutes cfg ctx router tokenInDenom tokenOutDenom s =
    match (if RouteCacheEnabled cfg
           then GetRoutes (routerRepository s) ctx tokenInDenom tokenOutDenom
           else inr route.empty) with
    | inl msg => (s, Err (CollaboratorError msg))
    | inr cached =>
        match GetURLPathFromContext ctx with
        | inl msg => (s, Err (CollaboratorError msg))
        | inr path =>
            let labels := (path, candidateRouteCacheLabel, tokenInDenom, tokenOutDenom) in
            if decide (Routes cached = []) then
              match GetAllPools ctx with
              | inl msg => (withCacheMiss labels s, Err (CollaboratorError msg))
              | inr allPools =>
                  match Router_GetCandidateRoutes (WithSortedPools router allPools)
                          tokenInDenom tokenOutDenom with
                  | inl msg => (withCacheMiss labels s, Err (CollaboratorError msg))
                  | inr computed =>
                      if bool_decide (Routes computed ≠ []) && RouteCacheEnabled cfg then
                        let written :=
                          SetRoutes (routerRepository s) ctx tokenInDenom tokenOutDenom
                            computed in
                        (withRepository written.1 (withCacheMiss labels s),
                         match written.2 with
                         | Some msg => Err (CollaboratorError msg)
                         | None => Ok computed
                         end)
                      else (withCacheMiss labels s, Ok computed)
                  end
              end
            else (withCacheHit labels s, Ok cached)
        end
    end.
Proof.
  unfold handleCandidateRoutes.
  assert ((if RouteCacheEnabled cfg
           then repo ← gets routerRepository ;
                call (GetRoutes repo ctx tokenInDenom tokenOutDenom)
           else mret route.empty) s
          = (s, ofReply (if RouteCacheEnabled cfg
                         then GetRoutes (routerRepository s) ctx tokenInDenom tokenOutDenom
                         else inr route.empty))) as Hread.
  { destruct (RouteCacheEnabled cfg); [|done]. by unfold_M. }
  unfold mbind at 1. unfold M_bind at 1. rewrite Hread. clear Hread.
  destruct (if RouteCacheEnabled cfg then _ else _) as [msg|cached]; [done|]. simpl.
  unfold_M. destruct (GetURLPathFromContext ctx) as [msg|path]; [done|]. simpl.
  destruct (Routes cached) as [|c cs] eqn:Hcached; simpl; [|done].
  destruct (GetAllPools ctx) as [msg|allPools]; [done|]. simpl.
  destruct (Router_GetCandidateRoutes _ _ _) as [msg|computed]; [done|]. simpl.
  destruct (Routes computed) as [|r rs]; simpl; [done|].
  destruct (RouteCacheEnabled cfg); simpl; [|done].
  by destruct (SetRoutes _ _ _ _ _) as [repo [msg|]].
Qed.

(** X7. [handleCandidateRoutes] writes to the repository at most once, only
    with the route cache enabled, and only a non-empty result of the
    search: an empty [CandidateRoutes] is never stored.  It never touches
    the ranked-route cache. *)
Theorem handleCandidateRoutes_writes cfg ctx router tokenInDenom tokenOutDenom s :
  let s' := (handleCandidateRoutes cfg ctx router tokenInDenom tokenOutDenom s).1 in
  rankedRouteCache s' = rankedRouteCache s ∧
  (routerRepository s' = routerRepository s ∨
   (RouteCacheEnabled cfg = true ∧
    ∃ allPools computed,
      GetAllPools ctx = inr allPools ∧
      Router_GetCandidateRoutes (WithSortedPools router allPools) tokenInDenom tokenOutDenom
        = inr computed ∧
      Routes computed ≠ [] ∧
      routerRepository s' =
        (SetRoutes (routerRepository s) ctx tokenInDenom tokenOutDenom computed).1)).
Proof.
  cbv zeta. split; [apply handleCandidateRoutes_rankedRouteCache|].
  rewrite handleCandidateRoutes_unfold.
  destruct (if RouteCacheEnabled cfg then _ else _) as [msg|cached]; [by left|].
  destruct (GetURLPathFromContext ctx) as [msg|path]; [by left|]. cbv zeta.
  case_decide; [|by left].
  destruct (GetAllPools ctx) as [msg|allPools] eqn:Hpools; [by left|].
  destruct (Router_GetCandidateRoutes _ _ _) as [msg|computed] eqn:Hsearch; [by left|].
  destruct (bool_decide (Routes computed ≠ [])) eqn:Hne; simpl; [|by left].
  destruct (RouteCacheEnabled cfg); simpl; [|by left].
  right. split; [done|]. exists allPools, computed.
  apply bool_decide_eq_true in Hne. done.
Qed.

(** X8. When [handleCandidateRoutes] fails, no hit is counted and the
    state is one of three: untouched (the cache read or the request path
    failed), with the miss counted (the pool snapshot or the search
    failed), or with the miss counted and the repository as [SetRoutes]
    left it when the failure is the one [SetRoutes] reported. *)
Theorem handleCandidateRoutes_failure cfg ctx router tokenInDenom tokenOutDenom s s' e :
  handleCandidateRoutes cfg ctx router tokenInDenom tokenOutDenom s = (s', Err e) →
  cacheHits s' = cacheHits s ∧
  (s' = s ∨
   ∃ path,
     GetURLPathFromContext ctx = inr path ∧
     let labels := (path, candidateRouteCacheLabel, tokenInDenom, tokenOutDenom) in
     (s' = withCacheMiss labels s ∨
      ∃ computed msg,
        RouteCacheEnabled cfg = true ∧ Routes computed ≠ [] ∧
        SetRoutes (routerRepository s) ctx tokenInDenom tokenOutDenom computed
          = (routerRepository s', Some msg) ∧
        s' = withRepository (routerRepository s') (withCacheMiss labels s) ∧
        e = CollaboratorError msg)).
Proof.
  rewrite handleCandidateRoutes_unfold.
  destruct (if RouteCacheEnabled cfg then _ else _) as [msg|cached];
    [intros [= <- <-]; by split; [|left]|].
  destruct (GetURLPathFromContext ctx) as [msg|path];
    [intros [= <- <-]; by split; [|left]|].
  cbv zeta. case_decide; [|done].
  destruct (GetAllPools ctx) as [msg|allPools];
    [intros [= <- <-]; split; [done|]; right; exists path; split; [done|by left]|].
  destruct (Router_GetCandidateRoutes _ _ _) as [msg|computed];
    [intros [= <- <-]; split; [done|]; right; exists path; split; [done|by left]|].
  destruct (bool_decide (Routes computed ≠ [])) eqn:Hne; simpl; [|done].
  destruct (RouteCacheEnabled cfg); simpl; [|done].
  destruct (SetRoutes _ _ _ _ _) as [repo [msg|]] eqn:Hset; simpl; [|done].
  intros [= <- <-]. split; [done|]. right. exists path. split; [done|]. right.
  exists computed, msg. apply bool_decide_eq_true in Hne. done.
Qed.

(** X9. A successful [handleCandidateRoutes] counts the request exactly
    once under the [candidate_route] label: as a hit, and then the result
    is the non-empty value read from the repository, or as a miss, and then
    the result is what the search computed. *)
Theorem handleCandidateRoutes_counts_once cfg ctx router tokenInDenom tokenOutDenom s s'
    candidateRoutes :
  handleCandidateRoutes cfg ctx router tokenInDenom tokenOutDenom s
    = (s', Ok candidateRoutes) →
  ∃ path,
    GetURLPathFromContext ctx = inr path ∧
    let labels := (path, candidateRouteCacheLabel, tokenInDenom, tokenOutDenom) in
    ((cacheHits s' = Inc labels (cacheHits s) ∧ cacheMisses s' = cacheMisses s ∧
      RouteCacheEnabled cfg = true ∧ Routes candidateRoutes ≠ [] ∧
      GetRoutes (routerRepository s) ctx tokenInDenom tokenOutDenom = inr candidateRoutes)
     ∨
     (cacheMisses s' = Inc labels (cacheMisses s) ∧ cacheHits s' = cacheHits s ∧
      ∃ allPools,
        GetAllPools ctx = inr allPools ∧
        Router_GetCandidateRoutes (WithSortedPools router allPools) tokenInDenom
          tokenOutDenom = inr candidateRoutes)).
Proof.
  rewrite handleCandidateRoutes_unfold. intros Hrun.
  assert (∃ path, GetURLPathFromContext ctx = inr path) as [path Hpath].
  { destruct (if RouteCacheEnabled cfg then _ else _); [done|].
    destruct (GetURLPathFromContext ctx); [done|]. eauto. }
  exists path. split; [done|]. rewrite Hpath in Hrun. cbv zeta in *.
  destruct (RouteCacheEnabled cfg) eqn:Hen.
  - destruct (GetRoutes _ _ _ _) as [msg|cached] eqn:Hget; [done|].
    case_decide as Hnil; [|left; by simplify_eq].
    right. destruct (GetAllPools ctx) as [msg|allPools] eqn:Hpools; [done|].
    destruct (Router_GetCandidateRoutes _ _ _) as [msg|computed] eqn:Hsearch; [done|].
    destruct (bool_decide (Routes computed ≠ [])); simpl in Hrun.
    + destruct (SetRoutes _ _ _ _ _) as [repo [msg|]]; simplify_eq/=. eauto.
    + simplify_eq/=. eauto.
  - right. rewrite decide_True in Hrun by done.
    destruct (GetAllPools ctx) as [msg|allPools] eqn:Hpools; [done|].
    destruct (Router_GetCandidateRoutes _ _ _) as [msg|computed] eqn:Hsearch; [done|].
    rewrite andb_false_r in Hrun. simplify_eq/=. eauto.
Qed.

(** X10. Over a repository that gives back what was stored for the pair,
    a second [handleCandidateRoutes] after one that returned routes is a
    hit: it returns the same routes, whatever the router, asks no pool and
    no search, and changes nothing but the hit counter. *)
Theorem handleCandidateRoutes_then_hit cfg ctx router router' tokenInDenom tokenOutDenom
    s s1 path candidateRoutes :
  RouteCacheEnabled cfg = true →
  GetURLPathFromContext ctx = inr path →
  (∀ stored,
     GetRoutes (SetRoutes (routerRepository s) ctx tokenInDenom tokenOutDenom stored).1
       ctx tokenInDenom tokenOutDenom = inr stored) →
  handleCandidateRoutes cfg ctx router tokenInDenom tokenOutDenom s
    = (s1, Ok candidateRoutes) →
  Routes candidateRoutes ≠ [] →
  handleCandidateRoutes cfg ctx router' tokenInDenom tokenOutDenom s1
    = (withCacheHit (path, candidateRouteCacheLabel, tokenInDenom, tokenOutDenom) s1,
       Ok candidateRoutes).
Proof.
  intros Hen Hpath Hlaw Hfirst Hne.
  assert (GetRoutes (routerRepository s1) ctx tokenInDenom tokenOutDenom
            = inr candidateRoutes) as Hget.
  { rewrite handleCandidateRoutes_unfold, Hen, Hpath in Hfirst.
    destruct (GetRoutes (routerRepository s) _ _ _) as [msg|cached] eqn:Hget; [done|].
    cbv zeta in Hfirst. case_decide as Hnil.
    - destruct (GetAllPools ctx) as [msg|allPools]; [done|].
      destruct (Router_GetCandidateRoutes _ _ _) as [msg|computed]; [done|].
      destruct (bool_decide (Routes computed ≠ [])) eqn:Hc; simpl in Hfirst.
      + destruct (SetRoutes _ _ _ _ _) as [repo [msg|]] eqn:Hset; simpl in Hfirst; [done|].
        injection Hfirst as <- <-. simpl. specialize (Hlaw computed).
        by rewrite Hset in Hlaw.
      + injection Hfirst as <- <-. apply bool_decide_eq_false in Hc.
        by apply dec_stable in Hc.
    - by injection Hfirst as <- <-. }
  rewrite handleCandidateRoutes_unfold, Hen, Hget, Hpath. cbv zeta.
  by rewrite decide_False.
Qed.

End CandidateRoutesMore.

(** ** Further results on the optimal quote *)

Section OptimalQuoteMore.

Context {D : Domain} {RR : RouterRepository} {PU : PoolsUsecase} {RA : RouterAPI}.

Implicit Types (s : State) (cfg : RouterConfig) (ctx : Context) (router : Router).

(** The hit branch: the hit is counted, then the cached value is ranked,
    or the cast fails. *)
Lemma rankedRoutesOnHit_spec ctx router path data tokenIn tokenOutDenom s :
  rankedRoutesOnHit ctx router path data tokenIn tokenOutDenom s =
    match data with
    | CandidateRoutesValue cached =>
        rankRoutesByDirectQuote ctx router cached tokenIn tokenOutDenom
          (withCacheHit (path, rankedRouteCacheLabel, Denom tokenIn, tokenOutDenom) s)
    | OtherValue _ =>
        (withCacheHit (path, rankedRouteCacheLabel, Denom tokenIn, tokenOutDenom) s,
         Err CacheError)
    end.
Proof. unfold rankedRoutesOnHit. unfold_M. by destruct data. Qed.

Lemma lookup_Inc (labels labels' : string * string * string * string)
    (m : gmap (string * string * string * string) nat) :
  Inc labels m !! labels' =
    if decide (labels = labels') then Some (S (default 0%nat (m !! labels)))
    else m !! labels'.
Proof.
  unfold Inc. case_decide as Heq.
  - subst. by rewrite lookup_insert_eq.
  - by rewrite lookup_insert_ne.
Qed.

(** [handleCandidateRoutes] counts under the [candidate_route] label
    only. *)
Lemma handleCandidateRoutes_other_counters cfg ctx router tokenInDenom tokenOutDenom s
    path label tokenIn tokenOut :
  label ≠ candidateRouteCacheLabel →
  let s' := (handleCandidateRoutes cfg ctx router tokenInDenom tokenOutDenom s).1 in
  cacheHits s' !! (path, label, tokenIn, tokenOut)
    = cacheHits s !! (path, label, tokenIn, tokenOut) ∧
  cacheMisses s' !! (path, label, tokenIn, tokenOut)
    = cacheMisses s !! (path, label, tokenIn, tokenOut).
Proof.
  intros Hlabel. cbv zeta. rewrite handleCandidateRoutes_unfold.
  destruct (if RouteCacheEnabled cfg then _ else _) as [msg|cached]; [done|].
  destruct (GetURLPathFromContext ctx) as [msg|path']; [done|]. cbv zeta.
  case_decide.
  - destruct (GetAllPools ctx) as [msg|allPools];
      [simpl; rewrite lookup_Inc, decide_False by congruence; done|].
    destruct (Router_GetCandidateRoutes _ _ _) as [msg|computed];
      [simpl; rewrite lookup_Inc, decide_False by congruence; done|].
    destruct (_ && _); simpl; rewrite lookup_Inc, decide_False by congruence; done.
  - simpl. rewrite lookup_Inc, decide_False by congruence. done.
Qed.

(** X11. On a ranked-route cache hit [GetOptimalQuote] writes no cache and
    asks for no candidate routes: the repository, the ranked-route cache and
    the miss counters are as before, and the state differs at most by the
    one hit counted for the request. *)
Theorem GetOptimalQuote_hit_frame cfg ctx tokenIn tokenOutDenom s data :
  Cache_Get (rankedRouteCache s) (rankedRouteCacheKey tokenIn tokenOutDenom) = Some data →
  let s' := (GetOptimalQuote cfg ctx tokenIn tokenOutDenom s).1 in
  routerRepository s' = routerRepository s ∧
  rankedRouteCache s' = rankedRouteCache s ∧
  cacheMisses s' = cacheMisses s ∧
  (s' = s ∨
   ∃ path, GetURLPathFromContext ctx = inr path ∧
           s' = withCacheHit (path, rankedRouteCacheLabel, Denom tokenIn, tokenOutDenom) s).
Proof.
  intros Hhit. cbv zeta. rewrite GetOptimalQuote_state, rankedRoutesFor_spec.
  destruct (GetURLPathFromContext ctx) as [msg|path]; [by split_and!; [..|left]|].
  rewrite Hhit, rankedRoutesOnHit_spec.
  assert ((match data with
           | CandidateRoutesValue cached =>
               rankRoutesByDirectQuote ctx (initializeRouter cfg) cached tokenIn tokenOutDenom
                 (withCacheHit (path, rankedRouteCacheLabel, Denom tokenIn, tokenOutDenom) s)
           | OtherValue _ =>
               (withCacheHit (path, rankedRouteCacheLabel, Denom tokenIn, tokenOutDenom) s,
                Err CacheError)
           end).1
          = withCacheHit (path, rankedRouteCacheLabel, Denom tokenIn, tokenOutDenom) s)
    as ->.
  { destruct data; [|done]. apply rankRoutesByDirectQuote_state. }
  split_and!; [done..|]. right. by exists path.
Qed.

(** X12. A ranked-route cache entry of another type than
    [CandidateRoutes] makes the request fail with the cast error after the
    hit is counted, and the entry stays: the next request for the key fails
    in the same way. *)
Theorem GetOptimalQuote_cache_type_error cfg ctx tokenIn tokenOutDenom s path tag :
  Cache_Get (rankedRouteCache s) (rankedRouteCacheKey tokenIn tokenOutDenom)
    = Some (OtherValue tag) →
  GetURLPathFromContext ctx = inr path →
  let labels := (path, rankedRouteCacheLabel, Denom tokenIn, tokenOutDenom) in
  GetOptimalQuote cfg ctx tokenIn tokenOutDenom s = (withCacheHit labels s, Err CacheError) ∧
  GetOptimalQuote cfg ctx tokenIn tokenOutDenom (withCacheHit labels s)
    = (withCacheHit labels (withCacheHit labels s), Err CacheError).
Proof.
  intros Hhit Hpath labels.
  assert (∀ s0, Cache_Get (rankedRouteCache s0) (rankedRouteCacheKey tokenIn tokenOutDenom)
                  = Some (OtherValue tag) →
                GetOptimalQuote cfg ctx tokenIn tokenOutDenom s0
                  = (withCacheHit labels s0, Err CacheError)) as Hfail.
  { intros s0 H0. rewrite GetOptimalQuote_phases, rankedRoutesFor_spec, Hpath, H0.
    by rewrite rankedRoutesOnHit_spec. }
  split; apply Hfail; done.
Qed.

(** The first phase on a miss that succeeds. *)
Lemma rankedRoutesFor_miss_ok cfg ctx tokenIn tokenOutDenom s s' top rankedRoutes :
  Cache_Get (rankedRouteCache s) (rankedRouteCacheKey tokenIn tokenOutDenom) = None →
  rankedRoutesFor cfg ctx tokenIn tokenOutDenom s = (s', Ok (top, rankedRoutes)) →
  ∃ path s1 ranked,
    GetURLPathFromContext ctx = inr path ∧
    ranked ≠ [] ∧
    rankedRoutes = filterDuplicatePoolIDRoutes ranked ∧
    rankedRouteCache s1 = rankedRouteCache s ∧
    s' = withRankedRouteCache
           (Cache_Set (rankedRouteCache s1) (rankedRouteCacheKey tokenIn tokenOutDenom)
              (CandidateRoutesValue (convertRankedToCandidateRoutes rankedRoutes))
              (Minute * 5)) s1.
Proof.
  intros Hmiss. rewrite rankedRoutesFor_spec.
  destruct (GetURLPathFromContext ctx) as [msg|path]; [done|].
  rewrite Hmiss, rankedRoutesOnMiss_spec.
  pose proof (handleCandidateRoutes_rankedRouteCache cfg ctx (initializeRouter cfg)
                (Denom tokenIn) tokenOutDenom
                (withCacheMiss (path, rankedRouteCacheLabel, Denom tokenIn, tokenOutDenom) s))
    as Hc.
  destruct (handleCandidateRoutes _ _ _ _ _ _) as [s1 [candidateRoutes|e]]; [|done].
  destruct (rankRoutesByDirectQuote _ _ _ _ _ _).2 as [[top' ranked]|e]; [|done].
  case_decide; [done|]. intros [= <- <- <-].
  exists path, s1, ranked. done.
Qed.

(** X13. On a ranked-route cache miss, the ranked routes that reach the
    selection are not empty and pairwise pool-disjoint, and they are the
    routes the call has just cached, converted, under the key of the
    request. *)
Theorem GetOptimalQuote_miss_selection cfg ctx tokenIn tokenOutDenom s s' top rankedRoutes :
  Cache_Get (rankedRouteCache s) (rankedRouteCacheKey tokenIn tokenOutDenom) = None →
  rankedRoutesFor cfg ctx tokenIn tokenOutDenom s = (s', Ok (top, rankedRoutes)) →
  rankedRoutes ≠ [] ∧
  PairwisePoolDisjoint rankedRoutes ∧
  Cache_Get (rankedRouteCache s') (rankedRouteCacheKey tokenIn tokenOutDenom)
    = Some (CandidateRoutesValue (convertRankedToCandidateRoutes rankedRoutes)).
Proof.
  intros Hmiss Hrun.
  destruct (rankedRoutesFor_miss_ok _ _ _ _ _ _ _ _ Hmiss Hrun)
    as (path & s1 & ranked & _ & Hne & -> & _ & ->).
  split_and!.
  - destruct ranked as [|r rs]; [done|].
    by destruct (filterDuplicatePoolIDRoutes_cons r rs) as [rest ->].
  - apply filterDuplicatePoolIDRoutes_disjoint.
  - simpl. unfold Cache_Get, Cache_Set. by rewrite lookup_insert_eq.
Qed.

(** X14. When the first phase of [GetOptimalQuote] fails (request path,
    cast, candidate routes, ranking, or no ranked route), the call fails
    with that error and the ranked-route cache is as it was: a cache entry
    is only written once the ranked routes are at hand. *)
Theorem GetOptimalQuote_early_failure cfg ctx tokenIn tokenOutDenom s s' e :
  rankedRoutesFor cfg ctx tokenIn tokenOutDenom s = (s', Err e) →
  GetOptimalQuote cfg ctx tokenIn tokenOutDenom s = (s', Err e) ∧
  rankedRouteCache s' = rankedRouteCache s.
Proof.
  intros Hrun. split; [by rewrite GetOptimalQuote_phases, Hrun|].
  rewrite rankedRoutesFor_spec in Hrun.
  destruct (GetURLPathFromContext ctx) as [msg|path]; [by simplify_eq|].
  destruct (Cache_Get _ _) as [data|].
  - rewrite rankedRoutesOnHit_spec in Hrun. destruct data; [|by simplify_eq].
    pose proof (rankRoutesByDirectQuote_state ctx (initializeRouter cfg) c tokenIn
                  tokenOutDenom
                  (withCacheHit (path, rankedRouteCacheLabel, Denom tokenIn, tokenOutDenom) s))
      as Hst.
    rewrite Hrun in Hst. simpl in Hst. by subst s'.
  - rewrite rankedRoutesOnMiss_spec in Hrun.
    pose proof (handleCandidateRoutes_rankedRouteCache cfg ctx (initializeRouter cfg)
                  (Denom tokenIn) tokenOutDenom
                  (withCacheMiss (path, rankedRouteCacheLabel, Denom tokenIn, tokenOutDenom) s))
      as Hc.
    destruct (handleCandidateRoutes _ _ _ _ _ _) as [s1 [candidateRoutes|e']];
      [|by simplify_eq].
    destruct (rankRoutesByDirectQuote _ _ _ _ _ _).2 as [[top ranked]|e'];
      [|by simplify_eq].
    case_decide; by simplify_eq.
Qed.

(** X15. Every [GetOptimalQuote] that reads its request path counts the
    request exactly once under the [ranked_route] label: a hit adds one to
    the hit counter of the request and leaves its miss counter, a miss adds
    one to the miss counter and leaves the hit counter. *)
Theorem GetOptimalQuote_counts_once cfg ctx tokenIn tokenOutDenom s path :
  GetURLPathFromContext ctx = inr path →
  let labels := (path, rankedRouteCacheLabel, Denom tokenIn, tokenOutDenom) in
  let s' := (GetOptimalQuote cfg ctx tokenIn tokenOutDenom s).1 in
  (is_Some (Cache_Get (rankedRouteCache s) (rankedRouteCacheKey tokenIn tokenOutDenom)) →
     cacheHits s' !! labels = Some (S (default 0%nat (cacheHits s !! labels))) ∧
     cacheMisses s' !! labels = cacheMisses s !! labels) ∧
  (Cache_Get (rankedRouteCache s) (rankedRouteCacheKey tokenIn tokenOutDenom) = None →
     cacheMisses s' !! labels = Some (S (default 0%nat (cacheMisses s !! labels))) ∧
     cacheHits s' !! labels = cacheHits s !! labels).
Proof.
  intros Hpath. cbv zeta.
  rewrite GetOptimalQuote_state, rankedRoutesFor_spec, Hpath. split.
  - intros [data Hhit]. rewrite Hhit, rankedRoutesOnHit_spec.
    assert ((match data with
             | CandidateRoutesValue cached =>
                 rankRoutesByDirectQuote ctx (initializeRouter cfg) cached tokenIn
                   tokenOutDenom
                   (withCacheHit (path, rankedRouteCacheLabel, Denom tokenIn, tokenOutDenom) s)
             | OtherValue _ =>
                 (withCacheHit (path, rankedRouteCacheLabel, Denom tokenIn, tokenOutDenom) s,
                  Err CacheError)
             end).1
            = withCacheHit (path, rankedRouteCacheLabel, Denom tokenIn, tokenOutDenom) s)
      as ->.
    { destruct data; [|done]. apply rankRoutesByDirectQuote_state. }
    simpl. by rewrite lookup_Inc, decide_True.
  - intros Hmiss. rewrite Hmiss, rankedRoutesOnMiss_spec.
    destruct (handleCandidateRoutes_other_counters cfg ctx (initializeRouter cfg)
                (Denom tokenIn) tokenOutDenom
                (withCacheMiss (path, rankedRouteCacheLabel, Denom tokenIn, tokenOutDenom) s)
                path rankedRouteCacheLabel (Denom tokenIn) tokenOutDenom)
      as [Hhits Hmisses]; [done|].
    simpl in Hhits, Hmisses.
    rewrite lookup_Inc, decide_True in Hmisses by done.
    destruct (handleCandidateRoutes _ _ _ _ _ _) as [s1 [candidateRoutes|e]];
      simpl in Hhits, Hmisses; [|done].
    destruct (rankRoutesByDirectQuote _ _ _ _ _ _).2 as [[top ranked]|e]; [|done].
    by case_decide.
Qed.

(** X16. A request repeated right after a miss that cached its routes is a
    hit: from the state the first call leaves, the first phase ranks
    exactly the cached conversion of the routes that reached the first
    selection, and the second call changes neither the repository nor the
    ranked-route cache. *)
Theorem GetOptimalQuote_miss_then_hit cfg ctx tokenIn tokenOutDenom s s' top rankedRoutes :
  Cache_Get (rankedRouteCache s) (rankedRouteCacheKey tokenIn tokenOutDenom) = None →
  rankedRoutesFor cfg ctx tokenIn tokenOutDenom s = (s', Ok (top, rankedRoutes)) →
  (GetOptimalQuote cfg ctx tokenIn tokenOutDenom s).1 = s' ∧
  (∃ path,
     rankedRoutesFor cfg ctx tokenIn tokenOutDenom s' =
       rankRoutesByDirectQuote ctx (initializeRouter cfg)
         (convertRankedToCandidateRoutes rankedRoutes) tokenIn tokenOutDenom
         (withCacheHit (path, rankedRouteCacheLabel, Denom tokenIn, tokenOutDenom) s')) ∧
  rankedRouteCache (GetOptimalQuote cfg ctx tokenIn tokenOutDenom s').1 = rankedRouteCache s' ∧
  routerRepository (GetOptimalQuote cfg ctx tokenIn tokenOutDenom s').1 = routerRepository s'.
Proof.
  intros Hmiss Hrun.
  destruct (rankedRoutesFor_miss_ok _ _ _ _ _ _ _ _ Hmiss Hrun)
    as (path & s1 & ranked & Hpath & Hne & Hfiltered & Hc & Hs').
  assert (Cache_Get (rankedRouteCache s') (rankedRouteCacheKey tokenIn tokenOutDenom)
            = Some (CandidateRoutesValue (convertRankedToCandidateRoutes rankedRoutes)))
    as Hhit.
  { rewrite Hs'. simpl. unfold Cache_Get, Cache_Set. by rewrite lookup_insert_eq. }
  assert (rankedRoutesFor cfg ctx tokenIn tokenOutDenom s' =
            rankRoutesByDirectQuote ctx (initializeRouter cfg)
              (convertRankedToCandidateRoutes rankedRoutes) tokenIn tokenOutDenom
              (withCacheHit (path, rankedRouteCacheLabel, Denom tokenIn, tokenOutDenom) s'))
    as Hsecond.
  { by rewrite rankedRoutesFor_spec, Hpath, Hhit, rankedRoutesOnHit_spec. }
  split_and!.
  - by rewrite GetOptimalQuote_state, Hrun.
  - by exists path.
  - by rewrite GetOptimalQuote_state, Hsecond, rankRoutesByDirectQuote_state.
  - by rewrite GetOptimalQuote_state, Hsecond, rankRoutesByDirectQuote_state.
Qed.

End OptimalQuoteMore.

(** ** Further results on the other operations *)

Section OperationsMore.

Context {D : Domain} {RR : RouterRepository} {PU : PoolsUsecase} {RA : RouterAPI}
  {PR : PoolReader} {SQ : SingleRouteQuoter}.

Implicit Types (s : State) (cfg : RouterConfig) (ctx : Context) (router : Router).

(** [handleCandidateRoutes] only fails with what a collaborator reported. *)
Lemma handleCandidateRoutes_error cfg ctx router tokenInDenom tokenOutDenom s e :
  (handleCandidateRoutes cfg ctx router tokenInDenom tokenOutDenom s).2 = Err e →
  ∃ msg, e = CollaboratorError msg.
Proof.
  rewrite handleCandidateRoutes_unfold.
  destruct (if RouteCacheEnabled cfg then _ else _) as [msg|cached]; [intros [= <-]; eauto|].
  destruct (GetURLPathFromContext ctx) as [msg|path]; [intros [= <-]; eauto|].
  cbv zeta. case_decide; [|done].
  destruct (GetAllPools ctx) as [msg|allPools]; [intros [= <-]; eauto|].
  destruct (Router_GetCandidateRoutes _ _ _) as [msg|computed]; [intros [= <-]; eauto|].
  destruct (_ && _); [|done]. simpl.
  destruct (SetRoutes _ _ _ _ _).2; [intros [= <-]; eauto|done].
Qed.

(** [GetCustomQuote] as a case analysis on what its collaborators
    answer. *)
Lemma GetCustomQuote_unfold cfg ctx tokenIn tokenOutDenom poolIDs s :
  GetCustomQuote cfg ctx tokenIn tokenOutDenom poolIDs s =
    match handleCandidateRoutes cfg ctx (initializeRouter cfg) (Denom tokenIn)
            tokenOutDenom s with
    | (s1, Err e) => (s1, Err e)
    | (s1, Ok candidateRoutes) =>
        match GetAllTakerFees (routerRepository s1) ctx with
        | inl msg => (s1, Err (CollaboratorError msg))
        | inr takerFees =>
            match GetRoutesFromCandidates ctx candidateRoutes takerFees (Denom tokenIn)
                    tokenOutDenom with
            | inl msg => (s1, Err (CollaboratorError msg))
            | inr routes =>
                (s1,
                 match list_find (λ r, GetPools r ≠ [] ∧ GetId <$> GetPools r = poolIDs)
                         routes with
                 | None => Err (NoMatchingRoute poolIDs)
                 | Some (_, foundRoute) =>
                     match estimateAndRankSingleRouteQuote (initializeRouter cfg)
                             [foundRoute] tokenIn with
                     | inl msg => Err (CollaboratorError msg)
                     | inr (quote, _) => Ok quote
                     end
                 end)
            end
        end
    end.
Proof.
  destruct (handleCandidateRoutes cfg ctx (initializeRouter cfg) (Denom tokenIn)
              tokenOutDenom s) as [s1 [candidateRoutes|e]] eqn:Hhandle.
  - destruct (GetAllTakerFees (routerRepository s1) ctx) as [msg|takerFees] eqn:Hfees.
    + unfold GetCustomQuote. unfold mbind at 1. unfold M_bind at 1. rewrite Hhandle.
      unfold_M. by rewrite Hfees.
    + destruct (GetRoutesFromCandidates ctx candidateRoutes takerFees (Denom tokenIn)
                  tokenOutDenom) as [msg|routes] eqn:Hroutes.
      * unfold GetCustomQuote. unfold mbind at 1. unfold M_bind at 1. rewrite Hhandle.
        unfold_M. rewrite Hfees. simpl. by rewrite Hroutes.
      * exact (GetCustomQuote_spec cfg ctx tokenIn tokenOutDenom poolIDs s s1
                 candidateRoutes takerFees routes Hhandle Hfees Hroutes).
  - unfold GetCustomQuote. unfold mbind at 1. unfold M_bind at 1. by rewrite Hhandle.
Qed.

(** X17. [GetCustomQuote] ends in one of three ways only: with a quote,
    with [NoMatchingRoute] for the requested pool ids, or with an error a
    collaborator reported.  Its check that the route index lies within the
    routes never fires, and neither [poolIDs[i]] nor [routes[routeIndex]]
    can panic. *)
Theorem GetCustomQuote_outcomes cfg ctx tokenIn tokenOutDenom poolIDs s :
  let result := (GetCustomQuote cfg ctx tokenIn tokenOutDenom poolIDs s).2 in
  (∃ quote, result = Ok quote) ∨
  result = Err (NoMatchingRoute poolIDs) ∨
  (∃ msg, result = Err (CollaboratorError msg)).
Proof.
  cbv zeta. rewrite GetCustomQuote_unfold.
  pose proof (handleCandidateRoutes_error cfg ctx (initializeRouter cfg) (Denom tokenIn)
                tokenOutDenom s) as Herr.
  destruct (handleCandidateRoutes _ _ _ _ _ _) as [s1 [candidateRoutes|e]]; simpl in *.
  - destruct (GetAllTakerFees _ _) as [msg|takerFees]; [eauto|].
    destruct (GetRoutesFromCandidates _ _ _ _ _) as [msg|routes]; [simpl; eauto|]. simpl.
    destruct (list_find _ routes) as [[i r]|]; [|eauto].
    destruct (estimateAndRankSingleRouteQuote _ _ _) as [msg|[quote sorted]]; eauto.
  - destruct (Herr e eq_refl) as [msg ->]. eauto.
Qed.

(** X18. With an empty list of pool ids [GetCustomQuote] never returns a
    quote: no route is matched, not even one without pools, so the call
    fails with [NoMatchingRoute] unless a collaborator failed before. *)
Theorem GetCustomQuote_empty_poolIDs cfg ctx tokenIn tokenOutDenom s :
  let result := (GetCustomQuote cfg ctx tokenIn tokenOutDenom [] s).2 in
  result = Err (NoMatchingRoute []) ∨ ∃ msg, result = Err (CollaboratorError msg).
Proof.
  cbv zeta. rewrite GetCustomQuote_unfold.
  pose proof (handleCandidateRoutes_error cfg ctx (initializeRouter cfg) (Denom tokenIn)
                tokenOutDenom s) as Herr.
  destruct (handleCandidateRoutes _ _ _ _ _ _) as [s1 [candidateRoutes|e]]; simpl in *.
  - destruct (GetAllTakerFees _ _) as [msg|takerFees]; [eauto|].
    destruct (GetRoutesFromCandidates _ _ _ _ _) as [msg|routes]; [simpl; eauto|]. simpl.
    destruct (list_find _ routes) as [[i r]|] eqn:Hfind; [|eauto].
    apply list_find_Some in Hfind as (_ & [Hne Hids] & _).
    destruct (GetPools r); done.
  - destruct (Herr e eq_refl) as [msg ->]. eauto.
Qed.

(** X19. The operations besides [GetOptimalQuote] never touch the
    ranked-route cache.  [GetCandidateRoutes], [GetCustomQuote] and
    [GetBestSingleRouteQuote] leave the state exactly as their call of
    [handleCandidateRoutes] leaves it; [GetTakerFee] and
    [GetCachedCandidateRoutes] leave it as it was. *)
Theorem operations_frame cfg ctx tokenIn tokenInDenom tokenOutDenom poolIDs poolID s :
  let handled tokenInDenom :=
    (handleCandidateRoutes cfg ctx (initializeRouter cfg) tokenInDenom tokenOutDenom s).1 in
  (GetCandidateRoutes cfg ctx tokenInDenom tokenOutDenom s).1 = handled tokenInDenom ∧
  (GetCustomQuote cfg ctx tokenIn tokenOutDenom poolIDs s).1 = handled (Denom tokenIn) ∧
  (usecase.GetBestSingleRouteQuote cfg ctx tokenIn tokenOutDenom s).1
    = handled (Denom tokenIn) ∧
  (usecase.GetTakerFee ctx poolID s).1 = s ∧
  (GetCachedCandidateRoutes cfg ctx tokenInDenom tokenOutDenom s).1 = s ∧
  rankedRouteCache (handled tokenInDenom) = rankedRouteCache s.
Proof.
  cbv zeta. split_and!.
  - done.
  - rewrite GetCustomQuote_unfold.
    destruct (handleCandidateRoutes _ _ _ _ _ _) as [s1 [candidateRoutes|e]]; [|done].
    destruct (GetAllTakerFees _ _) as [msg|takerFees]; [done|].
    by destruct (GetRoutesFromCandidates _ _ _ _ _) as [msg|routes].
  - unfold usecase.GetBestSingleRouteQuote. unfold mbind at 1. unfold M_bind at 1.
    destruct (handleCandidateRoutes _ _ _ _ _ _) as [s1 [candidateRoutes|e]]; [|done].
    unfold_M. by_cases.
  - unfold usecase.GetTakerFee. unfold_M. by_cases.
  - unfold GetCachedCandidateRoutes. by_cases.
  - apply handleCandidateRoutes_rankedRouteCache.
Qed.

(** X20. What [GetCachedCandidateRoutes] returns without error and
    non-empty is what [handleCandidateRoutes] serves: on the same state the
    latter returns the same routes as a hit, whatever the router and the
    pools. *)
Theorem GetCachedCandidateRoutes_agrees cfg ctx router tokenInDenom tokenOutDenom s path
    candidateRoutes :
  GetCachedCandidateRoutes cfg ctx tokenInDenom tokenOutDenom s
    = (s, (candidateRoutes, None)) →
  Routes candidateRoutes ≠ [] →
  GetURLPathFromContext ctx = inr path →
  handleCandidateRoutes cfg ctx router tokenInDenom tokenOutDenom s
    = (withCacheHit (path, candidateRouteCacheLabel, tokenInDenom, tokenOutDenom) s,
       Ok candidateRoutes).
Proof.
  unfold GetCachedCandidateRoutes. intros Hcached Hne Hpath.
  rewrite handleCandidateRoutes_unfold, Hpath.
  destruct (RouteCacheEnabled cfg); simpl in Hcached; [|done].
  destruct (GetRoutes _ _ _ _) as [msg|cached]; [done|]. simplify_eq.
  cbv zeta. by rewrite decide_False.
Qed.

(** *** The taker fees of a pool *)

Lemma appendTakerFees_spec takerFees denom0 rest result :
  usecase.appendTakerFees takerFees denom0 rest result =
    result ++ ((λ denom1, {| Denom0 := denom0; Denom1 := denom1;
                             TakerFee := TakerFeeMap_GetTakerFee takerFees denom0 denom1 |})
                 <$> rest).
Proof.
  unfold usecase.appendTakerFees. revert result.
  induction rest as [|d rest IH]; intros result; simpl.
  - by rewrite app_nil_r.
  - by rewrite IH, <- app_assoc.
Qed.

Lemma takerFeesForPairs_length takerFees poolDenoms result :
  (2 * length (usecase.takerFeesForPairs takerFees poolDenoms result)
   = 2 * length result + length poolDenoms * (length poolDenoms - 1))%nat.
Proof.
  revert result. induction poolDenoms as [|d rest IH]; intros result.
  - simpl. lia.
  - cbn [usecase.takerFeesForPairs].
    rewrite IH, appendTakerFees_spec, length_app, length_fmap. cbn [length].
    destruct (length rest) as [|n]; [lia|].
    replace (S n - 1)%nat with n by lia. replace (S (S n) - 1)%nat with (S n) by lia.
    nia.
Qed.

Lemma takerFeesForPairs_elem_of takerFees poolDenoms result pair :
  pair ∈ usecase.takerFeesForPairs takerFees poolDenoms result ↔
    pair ∈ result ∨
    ∃ i j denom0 denom1,
      (i < j)%nat ∧ poolDenoms !! i = Some denom0 ∧ poolDenoms !! j = Some denom1 ∧
      pair = {| Denom0 := denom0; Denom1 := denom1;
                TakerFee := TakerFeeMap_GetTakerFee takerFees denom0 denom1 |}.
Proof.
  revert result. induction poolDenoms as [|d rest IH]; intros result; simpl.
  - split; [by left|]. intros [?|(i & j & d0 & d1 & _ & Hi & _)]; done.
  - rewrite IH, appendTakerFees_spec, elem_of_app, list_elem_of_fmap. split.
    + intros [[Hres|(d1 & -> & Hd1)]|(i & j & d0 & d1 & Hij & Hi & Hj & ->)].
      * by left.
      * right. apply list_elem_of_lookup in Hd1 as [j Hj].
        exists 0%nat, (S j), d, d1. split_and!; [lia|done..].
      * right. exists (S i), (S j), d0, d1. split_and!; [lia|done..].
    + intros [Hres|(i & j & d0 & d1 & Hij & Hi & Hj & ->)]; [by left; left|].
      destruct j as [|j]; [lia|]. simpl in Hj. destruct i as [|i]; simpl in Hi.
      * simplify_eq. left. right. exists d1. split; [done|].
        by eapply list_elem_of_lookup_2.
      * right. exists i, j, d0, d1. split_and!; [lia|done..].
Qed.

(** X21. [GetTakerFee], once the taker fees and the pool are read, returns
    one entry for every pair of positions [i < j] of the pool's denoms and
    no other: [Denom0] is the denom at [i], [Denom1] the denom at [j], in
    the order of the pool's denom list, with the fee the map holds for
    them in that order.  A pool of [n] denoms yields [n (n - 1) / 2]
    entries.  The state is not changed. *)
Theorem GetTakerFee_pairs ctx poolID s takerFees pool :
  GetAllTakerFees (routerRepository s) ctx = inr takerFees →
  GetPool ctx poolID = inr pool →
  ∃ result,
    usecase.GetTakerFee ctx poolID s = (s, Ok result) ∧
    (2 * length result
     = length (GetPoolDenoms pool) * (length (GetPoolDenoms pool) - 1))%nat ∧
    ∀ pair,
      pair ∈ result ↔
        ∃ i j denom0 denom1,
          (i < j)%nat ∧ GetPoolDenoms pool !! i = Some denom0 ∧
          GetPoolDenoms pool !! j = Some denom1 ∧
          pair = {| Denom0 := denom0; Denom1 := denom1;
                    TakerFee := TakerFeeMap_GetTakerFee takerFees denom0 denom1 |}.
Proof.
  intros Hfees Hpool.
  exists (usecase.takerFeesForPairs takerFees (GetPoolDenoms pool) []). split_and!.
  - unfold usecase.GetTakerFee. unfold_M. rewrite Hfees. simpl. by rewrite Hpool.
  - rewrite takerFeesForPairs_length. simpl. lia.
  - intros pair. rewrite takerFeesForPairs_elem_of. split; [|by right].
    intros [Hnil|Hpair]; [by apply elem_of_nil in Hnil|done].
Qed.

End OperationsMore.

(** ** Further results on the selection and on what the operations read *)

Section SelectionMore.

Context {D : Domain} {RR : RouterRepository} {PU : PoolsUsecase} {RA : RouterAPI}
  {PR : PoolReader} {SQ : SingleRouteQuoter}.

Implicit Types (s : State) (cfg : RouterConfig) (ctx : Context) (router : Router).

(** X22. Whenever [GetOptimalQuote] returns a quote with the number of
    ranked routes at the selection other than one, the splitter has
    answered and the quote is the top single-route quote or the split
    quote, the split one only if strictly better; its amount out is not
    zero and not below the single-route amount, hence positive when that
    one is not negative; and the state is the one the first phase
    left. *)
Theorem GetOptimalQuote_split_result cfg ctx tokenIn tokenOutDenom s s' s'' top rankedRoutes
    quote :
  rankedRoutesFor cfg ctx tokenIn tokenOutDenom s = (s', Ok (top, rankedRoutes)) →
  length rankedRoutes ≠ 1%nat →
  GetOptimalQuote cfg ctx tokenIn tokenOutDenom s = (s'', Ok quote) →
  s'' = s' ∧
  (∃ split,
     GetSplitQuote (initializeRouter cfg) rankedRoutes tokenIn = inr split ∧
     quote = if GetAmountOut top <? GetAmountOut split then split else top) ∧
  GetAmountOut quote ≠ 0 ∧
  GetAmountOut top ≤ GetAmountOut quote ∧
  (0 ≤ GetAmountOut top → 0 < GetAmountOut quote).
Proof.
  intros Hranked Hlen. rewrite GetOptimalQuote_phases, Hranked.
  unfold selectQuote. rewrite decide_False by done. unfold_M.
  destruct (GetSplitQuote _ _ _) as [msg|split]; simpl; [done|].
  destruct (GetRoute _); [done|].
  destruct (Z.eqb_spec (GetAmountOut
              (if GetAmountOut top <? GetAmountOut split then split else top)) 0)
    as [Hz|Hz]; simpl; [done|].
  intros [= <- <-]. split_and!; [done|by exists split|done| |].
  - destruct (Z.ltb_spec (GetAmountOut top) (GetAmountOut split)); lia.
  - revert Hz. destruct (Z.ltb_spec (GetAmountOut top) (GetAmountOut split)); lia.
Qed.

Lemma handleCandidateRoutes_ignores_ranked_cache cfg ctx router tokenInDenom tokenOutDenom
    s c :
  handleCandidateRoutes cfg ctx router tokenInDenom tokenOutDenom (withRankedRouteCache c s)
    = (withRankedRouteCache c
         (handleCandidateRoutes cfg ctx router tokenInDenom tokenOutDenom s).1,
       (handleCandidateRoutes cfg ctx router tokenInDenom tokenOutDenom s).2).
Proof.
  rewrite !handleCandidateRoutes_unfold. simpl.
  destruct (if RouteCacheEnabled cfg then _ else _) as [msg|cached]; [done|].
  destruct (GetURLPathFromContext ctx) as [msg|path]; [done|]. cbv zeta.
  case_decide; [|done].
  destruct (GetAllPools ctx) as [msg|allPools]; [done|].
  destruct (Router_GetCandidateRoutes _ _ _) as [msg|computed]; [done|].
  by destruct (_ && _).
Qed.

(** X23. The operations besides [GetOptimalQuote] do not read the
    ranked-route cache: whatever that cache holds, [handleCandidateRoutes],
    [GetCustomQuote], [GetBestSingleRouteQuote] and [GetTakerFee] give the
    same answer. *)
Theorem operations_ignore_ranked_cache cfg ctx router tokenIn tokenInDenom tokenOutDenom
    poolIDs poolID s c :
  (handleCandidateRoutes cfg ctx router tokenInDenom tokenOutDenom
     (withRankedRouteCache c s)).2
    = (handleCandidateRoutes cfg ctx router tokenInDenom tokenOutDenom s).2 ∧
  (GetCustomQuote cfg ctx tokenIn tokenOutDenom poolIDs (withRankedRouteCache c s)).2
    = (GetCustomQuote cfg ctx tokenIn tokenOutDenom poolIDs s).2 ∧
  (usecase.GetBestSingleRouteQuote cfg ctx tokenIn tokenOutDenom (withRankedRouteCache c s)).2
    = (usecase.GetBestSingleRouteQuote cfg ctx tokenIn tokenOutDenom s).2 ∧
  (usecase.GetTakerFee ctx poolID (withRankedRouteCache c s)).2
    = (usecase.GetTakerFee ctx poolID s).2.
Proof.
  split_and!.
  - by rewrite handleCandidateRoutes_ignores_ranked_cache.
  - rewrite !GetCustomQuote_unfold, handleCandidateRoutes_ignores_ranked_cache.
    destruct (handleCandidateRoutes _ _ _ _ _ s) as [s1 [candidateRoutes|e]]; [|done].
    simpl. destruct (GetAllTakerFees _ _) as [msg|takerFees]; [done|].
    by destruct (GetRoutesFromCandidates _ _ _ _ _) as [msg|routes].
  - unfold usecase.GetBestSingleRouteQuote. unfold mbind at 1 5. unfold M_bind at 1 5.
    rewrite handleCandidateRoutes_ignores_ranked_cache.
    destruct (handleCandidateRoutes _ _ _ _ _ s) as [s1 [candidateRoutes|e]]; [|done].
    unfold_M. simpl. by_cases.
  - unfold usecase.GetTakerFee. unfold_M. simpl. by_cases.
Qed.

End SelectionMore.

(** ** Further scenarios, checked *)

Section ScenariosMore.

Import mocks scenarios poolmocks.

(** Two keys over denoms without a slash that are equal come from the same
    request. *)
Lemma formatRankedRouteCacheKey_inj_witness :
  uosmo = "uosmo" ∧ uion = "uion" ∧ orderOfMagnitude 1000 = 3.
Proof.
  apply (formatRankedRouteCacheKey_inj uosmo uion "uosmo" "uion" (orderOfMagnitude 1000) 3);
    reflexivity.
Defined.

(** Routes A and B ranked with room for three: both come back, best
    first. *)
Lemma estimateDirectQuote_top_routes_witness :
  estimateDirectQuote (D := domain) (RA := RouterAPIMock) (NewRouterMock 3) [routeB; routeA] thousand
    = Ok (quoteA, [routeA; routeB]).
Proof.
  rewrite (estimateDirectQuote_top_routes (D := domain) (RA := RouterAPIMock) (NewRouterMock 3)
             [routeB; routeA] thousand quoteA
             [{| RouteImpl_ := routeA; InAmount := 1000; OutAmount := 1000 |};
              {| RouteImpl_ := routeB; InAmount := 1000; OutAmount := 900 |}]).
  - reflexivity.
  - vm_compute. reflexivity.
  - simpl. lia.
  - reflexivity.
Defined.

(** With splits disabled the second input route stays behind the best
    one. *)
Lemma estimateDirectQuote_split_disabled_witness :
  estimateDirectQuote (D := domain) (RA := RouterAPIMock) (NewRouterMock 0) [routeB; routeA] thousand
    = Ok (quoteA, [routeA; routeA]).
Proof.
  rewrite (estimateDirectQuote_split_disabled (D := domain) (RA := RouterAPIMock) (NewRouterMock 0)
             [routeB; routeA] thousand quoteA
             {| RouteImpl_ := routeA; InAmount := 1000; OutAmount := 1000 |}
             [{| RouteImpl_ := routeB; InAmount := 1000; OutAmount := 900 |}]).
  - reflexivity.
  - vm_compute. reflexivity.
  - reflexivity.
Defined.

(** A negative bound panics. *)
Lemma estimateDirectQuote_edges_witness :
  estimateDirectQuote (D := domain) (RA := RouterAPIMock) (NewRouterMock (-1)) [routeA] thousand
    = Err Panic.
Proof.
  destruct (estimateDirectQuote_edges (D := domain) (RA := RouterAPIMock)
              (NewRouterMock (-1)) [routeA] thousand quoteA
              [{| RouteImpl_ := routeA; InAmount := 1000; OutAmount := 1000 |}])
    as [Hnegative _].
  - vm_compute. reflexivity.
  - apply Hnegative. simpl. lia.
Defined.

(** Without a request path in the context nothing changes. *)
Lemma handleCandidateRoutes_failure_witness :
  cacheHits
    (handleCandidateRoutes (PU := PoolsUsecaseMock [poolA]) (config true) None
       (initializeRouter (config true)) uosmo uion cachedState).1
    = cacheHits cachedState.
Proof.
  apply (handleCandidateRoutes_failure (PU := PoolsUsecaseMock [poolA]) (config true) None
           (initializeRouter (config true)) uosmo uion cachedState cachedState
           (CollaboratorError "request path not in context")).
  vm_compute. reflexivity.
Defined.

(** A miss over pool A counts one miss and finds the route through it. *)
Lemma handleCandidateRoutes_counts_once_witness :
  ∃ path, urlPath ctx = inr path.
Proof.
  destruct (handleCandidateRoutes_counts_once (PU := PoolsUsecaseMock [poolA]) (config true)
              ctx (initializeRouter (config true)) uosmo uion emptyState
              (candidateRoutesOf [poolA] (config true) emptyState).1 singleDefaultRoutes)
    as (path & Hpath & _).
  - vm_compute. reflexivity.
  - exists path. exact Hpath.
Defined.

(** After the miss over pool A, the routes come from the repository even
    when the pools are gone. *)
Lemma handleCandidateRoutes_then_hit_witness :
  (handleCandidateRoutes (PU := PoolsUsecaseMock [poolA]) (config true) ctx
     (initializeRouter (config true)) uosmo uion
     (candidateRoutesOf [poolA] (config true) emptyState).1).2
    = Ok singleDefaultRoutes.
Proof.
  rewrite (handleCandidateRoutes_then_hit (PU := PoolsUsecaseMock [poolA]) (config true) ctx
             (initializeRouter (config true)) (initializeRouter (config true)) uosmo uion
             emptyState (candidateRoutesOf [poolA] (config true) emptyState).1
             "/router/quote" singleDefaultRoutes).
  - reflexivity.
  - reflexivity.
  - reflexivity.
  - intros stored. simpl. unfold RedisRouterRepositoryMock_GetRoutes,
      RedisRouterRepositoryMock_SetRoutes. simpl. by rewrite lookup_insert_eq.
  - vm_compute. reflexivity.
  - vm_compute. discriminate.
Defined.

(** A hit on the cached route B: the caches stay. *)
Lemma GetOptimalQuote_hit_frame_witness :
  rankedRouteCache (optimalQuote [poolA; poolB] (config true) thousand rankedState).1
    = rankedRouteCache rankedState ∧
  routerRepository (optimalQuote [poolA; poolB] (config true) thousand rankedState).1
    = routerRepository rankedState.
Proof.
  destruct (GetOptimalQuote_hit_frame (PU := PoolsUsecaseMock [poolA; poolB]) (config true)
              ctx thousand uion rankedState
              (CandidateRoutesValue
                 {| Routes := [{| Pools := [{| ID := 2; TokenOutDenom := "uion" |}] |}];
                    UniquePoolIDs := {[2%N]} |}))
    as (Hrepo & Hcache & _).
  - vm_compute. reflexivity.
  - split; [exact Hcache|exact Hrepo].
Defined.

(** The entry of another type fails the request. *)
Lemma GetOptimalQuote_cache_type_error_witness :
  (optimalQuote [poolA] (config true) thousand poisonedState).2 = Err CacheError.
Proof.
  destruct (GetOptimalQuote_cache_type_error (PU := PoolsUsecaseMock [poolA]) (config true)
              ctx thousand uion poisonedState "/router/quote" "split") as [Hfirst _].
  - vm_compute. reflexivity.
  - reflexivity.
  - unfold optimalQuote. rewrite Hfirst. reflexivity.
Defined.

(** Over pools A and B both routes reach the selection and are cached. *)
Lemma GetOptimalQuote_miss_selection_witness :
  PairwisePoolDisjoint [routeA; routeB].
Proof.
  apply (GetOptimalQuote_miss_selection (PU := PoolsUsecaseMock [poolA; poolB]) (config true)
           ctx thousand uion emptyState
           (rankedRoutesFor (PU := PoolsUsecaseMock [poolA; poolB]) (config true) ctx
              thousand uion emptyState).1
           quoteA [routeA; routeB]).
  - vm_compute. reflexivity.
  - vm_compute. reflexivity.
Defined.

(** Without pools the evaluator has nothing to rank: the call fails and
    the ranked-route cache stays empty. *)
Lemma GetOptimalQuote_early_failure_witness :
  (optimalQuote [] (config true) thousand emptyState).2
    = Err (CollaboratorError "no routes were provided") ∧
  rankedRouteCache (optimalQuote [] (config true) thousand emptyState).1 = ∅.
Proof.
  destruct (GetOptimalQuote_early_failure (PU := PoolsUsecaseMock []) (config true) ctx
              thousand uion emptyState
              (rankedRoutesFor (PU := PoolsUsecaseMock []) (config true) ctx thousand uion
                 emptyState).1
              (CollaboratorError "no routes were provided")) as [Hrun Hcache].
  - vm_compute. reflexivity.
  - unfold optimalQuote. rewrite Hrun. split; [reflexivity|]. simpl. exact Hcache.
Defined.

(** The first request over pool A counts one ranked-route miss. *)
Lemma GetOptimalQuote_counts_once_witness :
  cacheMisses (optimalQuote [poolA] (config true) thousand emptyState).1
    !! ("/router/quote", rankedRouteCacheLabel, uosmo, uion) = Some 1%nat.
Proof.
  destruct (GetOptimalQuote_counts_once (PU := PoolsUsecaseMock [poolA]) (config true) ctx
              thousand uion emptyState "/router/quote") as [_ Hmiss].
  - reflexivity.
  - destruct Hmiss as [Hone _]; [vm_compute; reflexivity|]. exact Hone.
Defined.

(** The second request over pools A and B leaves the caches as the first
    left them. *)
Lemma GetOptimalQuote_miss_then_hit_witness :
  rankedRouteCache
    (optimalQuote [poolA; poolB] (config true) thousand
       (optimalQuote [poolA; poolB] (config true) thousand emptyState).1).1
    = rankedRouteCache (optimalQuote [poolA; poolB] (config true) thousand emptyState).1.
Proof.
  destruct (GetOptimalQuote_miss_then_hit (PU := PoolsUsecaseMock [poolA; poolB])
              (config true) ctx thousand uion emptyState
              (rankedRoutesFor (PU := PoolsUsecaseMock [poolA; poolB]) (config true) ctx
                 thousand uion emptyState).1
              quoteA [routeA; routeB]) as (Hstate & _ & Hcache & _).
  - vm_compute. reflexivity.
  - vm_compute. reflexivity.
  - unfold optimalQuote. rewrite Hstate. exact Hcache.
Defined.

(** The routes [GetCachedCandidateRoutes] reads are the ones
    [handleCandidateRoutes] returns. *)
Lemma GetCachedCandidateRoutes_agrees_witness :
  (candidateRoutesOf [] (config true) cachedState).2 = Ok singleDefaultRoutes.
Proof.
  unfold candidateRoutesOf.
  rewrite (GetCachedCandidateRoutes_agrees (PU := PoolsUsecaseMock []) (config true) ctx
             (initializeRouter (config true)) uosmo uion cachedState "/router/quote"
             singleDefaultRoutes).
  - reflexivity.
  - vm_compute. reflexivity.
  - vm_compute. discriminate.
  - reflexivity.
Defined.

(** The pool over uatom, uion and uosmo has three pairs. *)
Lemma GetTakerFee_pairs_witness :
  ∃ result,
    usecase.GetTakerFee (PR := PoolReaderMock [threeDenomPool] lengthFee) ctx 7 emptyState
      = (emptyState, Ok result) ∧
    (2 * length result = 6)%nat ∧
    mkTakerFeeForPair "uatom" "uosmo" 55 ∈ result.
Proof.
  destruct (GetTakerFee_pairs (PR := PoolReaderMock [threeDenomPool] lengthFee) ctx 7
              emptyState tt threeDenomPool) as (result & Hrun & Hlen & Hmem).
  - reflexivity.
  - vm_compute. reflexivity.
  - exists result. split_and!; [exact Hrun|exact Hlen|].
    apply Hmem. exists 0%nat, 2%nat, "uatom", "uosmo".
    split_and!; [lia|reflexivity..].
Defined.

(** Over pools A and B the quote returned is the single one, worth 1000. *)
Lemma GetOptimalQuote_split_result_witness :
  0 < GetAmountOut quoteA.
Proof.
  destruct (GetOptimalQuote_split_result (PU := PoolsUsecaseMock [poolA; poolB]) (config true)
              ctx thousand uion emptyState
              (rankedRoutesFor (PU := PoolsUsecaseMock [poolA; poolB]) (config true) ctx
                 thousand uion emptyState).1
              (optimalQuote [poolA; poolB] (config true) thousand emptyState).1
              quoteA [routeA; routeB] quoteA) as (_ & _ & _ & _ & Hpositive).
  - vm_compute. reflexivity.
  - simpl. lia.
  - vm_compute. reflexivity.
  - apply Hpositive. simpl. lia.
Defined.

End ScenariosMore.
